(** * Alert rule engine of the IoT smart-building dashboard

    A shallow embedding of
    - [webapp/models/alert_rule.py]          (rule validation),
    - [webapp/utils/alert_rules_manager.py]  (rule store, evaluator, cooldown,
                                              trigger statistics),
    - [webapp/utils/realtime_monitor.py]     (action fan-out of a firing),
    - [webapp/utils/notifications.py]        (notification dispatcher),
    together with the properties the specification states about them.

    Conventions of the embedding
    - a telemetry event (a Python dict decoded from JSON) is a finite map from
      field names to JSON values;
    - Python numbers (int, float, bool) are exact rationals: comparisons of
      Python numbers are exact, and the rounding of float arithmetic is not
      modelled;
    - a rule document is a record whose fields are optional ([None] = the key
      is absent from the dict);
    - clock readings ([datetime.now()]) are passed in explicitly as a number
      of seconds;
    - a Python exception is a [Raise] result; [try/except] is a match on it. *)

From Stdlib Require Import ZArith QArith Qfield Lqa String Ascii List Bool Lia.
From stdpp Require Import gmap strings pretty sorting.
Import ListNotations.

Local Open Scope string_scope.
Local Open Scope list_scope.

(** ** Exceptions *)

Inductive exn : Type :=
| TypeError.

Inductive result (A : Type) : Type :=
| Ok (a : A)
| Raise (e : exn).

Arguments Ok {A} a.
Arguments Raise {A} e.

Definition bind {A B : Type} (m : result A) (k : A -> result B) : result B :=
  match m with
  | Ok a => k a
  | Raise e => Raise e
  end.

Notation "x <- m ;; k" := (bind m (fun x => k))
  (at level 100, m at next level, right associativity).

(** ** JSON values and Python's comparison operators *)

#[warnings="-register-all"]
Inductive value : Type :=
| VNone
| VBool (b : bool)
| VNum (q : Q)
| VStr (s : string)
| VList (l : list value).

(** [bool] is a subtype of [int]: [True == 1], [False < 0.5]. *)
Definition num_of (v : value) : option Q :=
  match v with
  | VBool b => Some (if b then 1%Q else 0%Q)
  | VNum q => Some q
  | _ => None
  end.

(** [a == b]; never raises on JSON values. *)
Fixpoint py_eq (a b : value) : bool :=
  match a, b with
  | VNone, VNone => true
  | VStr s, VStr t => String.eqb s t
  | VList l, VList m =>
      (fix all2 (l m : list value) : bool :=
         match l, m with
         | [], [] => true
         | x :: l', y :: m' => py_eq x y && all2 l' m'
         | _, _ => false
         end) l m
  | VBool _, VBool _ | VBool _, VNum _ | VNum _, VBool _ | VNum _, VNum _ =>
      match num_of a, num_of b with
      | Some x, Some y => Qeq_bool x y
      | _, _ => false
      end
  | _, _ => false
  end.

Inductive ordop : Type := Lt | Le | Gt | Ge.

Definition Qlt_bool (x y : Q) : bool := negb (Qle_bool y x).

Definition ord_Q (op : ordop) (x y : Q) : bool :=
  match op with
  | Lt => Qlt_bool x y
  | Le => Qle_bool x y
  | Gt => Qlt_bool y x
  | Ge => Qle_bool y x
  end.

(** Strings are compared by code point, which on UTF-8 text is the
    byte-wise lexicographic order. *)
Definition ord_str (op : ordop) (s t : string) : bool :=
  match op with
  | Lt => String.ltb s t
  | Le => String.leb s t
  | Gt => String.ltb t s
  | Ge => String.leb t s
  end.

Definition ord_nat (op : ordop) (n m : nat) : bool :=
  match op with
  | Lt => Nat.ltb n m
  | Le => Nat.leb n m
  | Gt => Nat.ltb m n
  | Ge => Nat.leb m n
  end.

(** [a < b], [a <= b], [a > b], [a >= b]: numbers with numbers, strings with
    strings, lists with lists (first differing pair decides, else the
    lengths); every other pairing raises [TypeError]. *)
Fixpoint py_order (op : ordop) (a b : value) : result bool :=
  match a, b with
  | VStr s, VStr t => Ok (ord_str op s t)
  | VList l, VList m =>
      (fix lex (l m : list value) : result bool :=
         match l, m with
         | x :: l', y :: m' => if py_eq x y then lex l' m' else py_order op x y
         | _, _ => Ok (ord_nat op (length l) (length m))
         end) l m
  | _, _ =>
      match num_of a, num_of b with
      | Some x, Some y => Ok (ord_Q op x y)
      | _, _ => Raise TypeError
      end
  end.

(** ** Telemetry events *)

Abbreviation event := (gmap string value).

(** [log.get(key)]: a missing key reads as [None]. *)
Definition get (log : event) (key : string) : value :=
  default VNone (log !! key).

(** [log.get(key, dflt)] *)
Definition get_default (log : event) (key : string) (dflt : value) : value :=
  default dflt (log !! key).

(** [v is None] *)
Definition is_None (v : value) : bool :=
  match v with
  | VNone => true
  | _ => false
  end.

(** ** Rule documents *)

Record log_filters : Type := {
  zone : option (list string);
  sensor_type : option (list string);
  status : option (list string);
  building : option string
}.

Record rule_conditions : Type := {
  field : option string;
  operator : option string;
  threshold : option value;
  min_value : option value;
  max_value : option value;
  time_window : option Q;
  event_count : option Z;
  filters : option log_filters
}.

Record action_config : Type := {
  recipients : option (list string);
  url : option string;
  webhook_url : option string;
  method : option string
}.

Record rule_action : Type := {
  action_type : option string;
  action_config_of : option action_config;
  action_enabled : option bool
}.

Record rule_stats : Type := {
  total_triggers : option Z;
  last_7_days_triggers : option Z;
  avg_value_on_trigger : option Q;
  zones_affected : option (list string)
}.

Record rule : Type := {
  name : option string;
  description : option string;
  enabled : option bool;
  rule_type : option string;
  conditions : option rule_conditions;
  actions : option (list rule_action);
  severity : option string;
  priority : option Z;
  cooldown : option Q;
  created_at : option Q;
  updated_at : option Q;
  last_triggered : option Q;
  trigger_count : option Z;
  stats : option rule_stats
}.

(** The empty dict [{}] that [.get(key, {})] falls back to. *)
Definition no_filters : log_filters :=
  {| zone := None; sensor_type := None; status := None; building := None |}.

Definition no_conditions : rule_conditions :=
  {| field := None; operator := None; threshold := None; min_value := None;
     max_value := None; time_window := None; event_count := None;
     filters := None |}.

Definition no_config : action_config :=
  {| recipients := None; url := None; webhook_url := None; method := None |}.

Definition no_stats : rule_stats :=
  {| total_triggers := None; last_7_days_triggers := None;
     avg_value_on_trigger := None; zones_affected := None |}.

(** ** AlertRulesManager._filter_logs *)

(** [filters.get(key) and len(filters[key]) > 0] *)
Definition nonempty_filter (f : option (list string)) : bool :=
  match f with
  | Some (_ :: _) => true
  | _ => false
  end.

(** [log.get(key) in wanted] *)
Definition member (v : value) (wanted : list string) : bool :=
  existsb (fun w => py_eq v (VStr w)) wanted.

Definition match_building (target_building : string) (log : event) : bool :=
  match get log "building" with
  | VNone => false
  | VList building_val => existsb (fun b => py_eq (VStr target_building) b) building_val
  | building_val => py_eq building_val (VStr target_building)
  end.

(** [filters.get('building')] is truthy *)
Definition truthy_str (s : option string) : bool :=
  match s with
  | Some (String _ _) => true
  | _ => false
  end.

Definition _filter_logs (logs : list event) (f : log_filters) : list event :=
  let filtered := logs in
  let filtered :=
    if nonempty_filter (zone f)
    then List.filter (fun log => member (get log "zone") (default [] (zone f))) filtered
    else filtered in
  let filtered :=
    if nonempty_filter (sensor_type f)
    then List.filter (fun log => member (get log "sensor_type") (default [] (sensor_type f))) filtered
    else filtered in
  let filtered :=
    if nonempty_filter (status f)
    then List.filter (fun log => member (get log "status") (default [] (status f))) filtered
    else filtered in
  let filtered :=
    if truthy_str (building f)
    then List.filter (match_building (default "" (building f))) filtered
    else filtered in
  filtered.

(** ** AlertRulesManager._evaluate_threshold *)

(** Python's [guard and test]: [test] is evaluated only when [guard] holds. *)
Definition and_then (guard : bool) (test : result bool) : result bool :=
  if guard then test else Ok false.

(** The [if/elif] chain that decides whether one event triggers. *)
Definition threshold_test (operator : string) (v threshold : value) : result bool :=
  b <- and_then (String.eqb operator ">") (py_order Gt v threshold) ;;
  if b then Ok true else
  b <- and_then (String.eqb operator "<") (py_order Lt v threshold) ;;
  if b then Ok true else
  b <- and_then (String.eqb operator ">=") (py_order Ge v threshold) ;;
  if b then Ok true else
  b <- and_then (String.eqb operator "<=") (py_order Le v threshold) ;;
  if b then Ok true else
  b <- and_then (String.eqb operator "==") (Ok (py_eq v threshold)) ;;
  if b then Ok true else
  b <- and_then (String.eqb operator "!=") (Ok (negb (py_eq v threshold))) ;;
  if b then Ok true else
  Ok false.

(** The [for log in matching_logs] loop; the first comparison that raises
    aborts the loop. *)
Fixpoint threshold_loop (field operator : string) (threshold : value)
    (matching_logs : list event) : result (list event) :=
  match matching_logs with
  | [] => Ok []
  | log :: rest =>
      let v := get log field in
      if is_None v then threshold_loop field operator threshold rest
      else
        triggered <- threshold_test operator v threshold ;;
        triggered_logs <- threshold_loop field operator threshold rest ;;
        Ok (if triggered then log :: triggered_logs else triggered_logs)
  end.

Definition _evaluate_threshold (r : rule) (logs : list event)
    : result (bool * list event) :=
  let conditions := default no_conditions (conditions r) in
  let field := default "value" (field conditions) in
  let operator := default ">" (operator conditions) in
  let threshold := default (VNum 0) (threshold conditions) in
  let matching_logs := _filter_logs logs (default no_filters (filters conditions)) in
  triggered_logs <- threshold_loop field operator threshold matching_logs ;;
  Ok (negb (Nat.eqb (length triggered_logs) 0), triggered_logs).

(** ** AlertRulesManager._evaluate_range *)

(** [value < min_value or value > max_value] *)
Definition out_of_range (v min_value max_value : value) : result bool :=
  below <- py_order Lt v min_value ;;
  if below then Ok true else py_order Gt v max_value.

Fixpoint range_loop (field : string) (min_value max_value : value)
    (matching_logs : list event) : result (list event) :=
  match matching_logs with
  | [] => Ok []
  | log :: rest =>
      let v := get log field in
      if is_None v then range_loop field min_value max_value rest
      else
        out <- out_of_range v min_value max_value ;;
        out_of_range_logs <- range_loop field min_value max_value rest ;;
        Ok (if out then log :: out_of_range_logs else out_of_range_logs)
  end.

Definition _evaluate_range (r : rule) (logs : list event)
    : result (bool * list event) :=
  let conditions := default no_conditions (conditions r) in
  let field := default "value" (field conditions) in
  let min_value := default (VNum 0) (min_value conditions) in
  let max_value := default (VNum 100) (max_value conditions) in
  let matching_logs := _filter_logs logs (default no_filters (filters conditions)) in
  out_of_range_logs <- range_loop field min_value max_value matching_logs ;;
  Ok (negb (Nat.eqb (length out_of_range_logs) 0), out_of_range_logs).

(** ** Timestamps *)

(** A [datetime]: seconds on the local time line; [Aware] carries a UTC
    offset. Ordering a naive against an aware [datetime] raises
    [TypeError]. *)
Inductive datetime : Type :=
| Naive (t : Q)
| Aware (t : Q).

(** [dt >= cutoff_time], where [cutoff_time] is naive. *)
Definition ge_naive (dt : datetime) (cutoff_time : Q) : result bool :=
  match dt with
  | Naive t => Ok (Qle_bool cutoff_time t)
  | Aware _ => Raise TypeError
  end.

(** [s.replace('Z', '')] *)
Fixpoint remove_Z (s : string) : string :=
  match s with
  | EmptyString => EmptyString
  | String c s' =>
      if Ascii.eqb c "Z"%char then remove_Z s' else String c (remove_Z s')
  end.

(** [s.split('.')[0]] *)
Fixpoint before_dot (s : string) : string :=
  match s with
  | EmptyString => EmptyString
  | String c s' =>
      if Ascii.eqb c "."%char then EmptyString else String c (before_dot s')
  end.

(** [recent_logs[:k]] *)
Definition slice_to {A : Type} (l : list A) (k : Z) : list A :=
  if (0 <=? k)%Z then firstn (Z.to_nat k) l
  else firstn (Z.to_nat (Z.of_nat (length l) + k)) l.

(** A list comprehension whose condition may raise. *)
Fixpoint filter_r {A : Type} (p : A -> result bool) (l : list A) : result (list A) :=
  match l with
  | [] => Ok []
  | x :: rest =>
      keep <- p x ;;
      kept <- filter_r p rest ;;
      Ok (if keep then x :: kept else kept)
  end.

Section Evaluator.

(** [datetime.fromisoformat], of the Python standard library: [None] when
    it raises [ValueError]. *)
Variable fromisoformat : string -> option datetime.

(** The clock; one evaluation reads it as a single instant. *)
Variable now : Q.

(** *** AlertRulesManager._parse_timestamp

    Anything but a string has no [replace] method; the bare [except]
    turns that, and a string that does not parse, into the current time. *)
Definition _parse_timestamp (timestamp_str : value) : datetime :=
  match timestamp_str with
  | VStr s =>
      let ts := before_dot (remove_Z s) in
      match fromisoformat ts with
      | Some dt => dt
      | None => Naive now
      end
  | _ => Naive now
  end.

(** [log.get('timestamp', log.get('@timestamp'))] *)
Definition timestamp_of (log : event) : value :=
  get_default log "timestamp" (get log "@timestamp").

(** *** AlertRulesManager._evaluate_pattern *)
Definition _evaluate_pattern (r : rule) (logs : list event)
    : result (bool * list event) :=
  let conditions := default no_conditions (conditions r) in
  let time_window := default 300%Q (time_window conditions) in
  let event_count := default 3%Z (event_count conditions) in
  let matching_logs := _filter_logs logs (default no_filters (filters conditions)) in
  if (event_count <=? Z.of_nat (length matching_logs))%Z then
    let cutoff_time := (now - time_window)%Q in
    recent_logs <-
      filter_r (fun log => ge_naive (_parse_timestamp (timestamp_of log)) cutoff_time)
               matching_logs ;;
    if (event_count <=? Z.of_nat (length recent_logs))%Z
    then Ok (true, slice_to recent_logs event_count)
    else Ok (false, [])
  else Ok (false, []).

(** *** AlertRulesManager._evaluate_trend *)
Definition _evaluate_trend (r : rule) (logs : list event)
    : result (bool * list event) :=
  Ok (false, []).

(** *** AlertRulesManager.evaluate_rule

    The [try/except Exception] around the dispatch turns every exception
    of an evaluator into [(False, [])]. *)
Definition evaluate_rule (r : rule) (logs : list event) : bool * list event :=
  if negb (default false (enabled r)) then (false, [])
  else
    let rule_type := default "threshold" (rule_type r) in
    let outcome :=
      if String.eqb rule_type "threshold" then _evaluate_threshold r logs
      else if String.eqb rule_type "range" then _evaluate_range r logs
      else if String.eqb rule_type "pattern" then _evaluate_pattern r logs
      else if String.eqb rule_type "trend" then _evaluate_trend r logs
      else Ok (false, []) in
    match outcome with
    | Ok answer => answer
    | Raise _ => (false, [])
    end.

End Evaluator.


(** ** AlertRule.validate_rule *)

Definition RULE_TYPES : list string := ["threshold"; "range"; "trend"; "pattern"].
Definition OPERATORS : list string := [">"; "<"; ">="; "<="; "=="; "!="].
Definition SEVERITIES : list string := ["low"; "medium"; "high"; "critical"].
Definition ACTION_TYPES : list string := ["email"; "webhook"; "slack"; "discord"; "sms"].

(** [x in names], for an [x] that may be [None] *)
Definition in_names (x : option string) (names : list string) : bool :=
  match x with
  | Some s => existsb (String.eqb s) names
  | None => false
  end.

(** [x == s] *)
Definition is_str (x : option string) (s : string) : bool :=
  match x with
  | Some s' => String.eqb s' s
  | None => false
  end.

(** Truthiness of an optional list: present and not empty. *)
Definition truthy_list {A : Type} (l : option (list A)) : bool :=
  match l with
  | Some (_ :: _) => true
  | _ => false
  end.

(** Truthiness of an optional number: present and not zero. *)
Definition truthy_num (q : option Q) : bool :=
  match q with
  | Some x => negb (Qeq_bool x 0)
  | None => false
  end.

(** [conditions.get(key) is None] *)
Definition value_is_None (v : option value) : bool :=
  match v with
  | Some v' => is_None v'
  | None => true
  end.

(** [str(x)] of an optional string, as an f-string prints it *)
Definition show (x : option string) : string := default "None" x.

(** One round of the [for action in actions] loop: the message of the
    [return False, ...] it takes, if any. *)
Definition validate_action (action : rule_action) : option string :=
  if negb (in_names (action_type action) ACTION_TYPES)
  then Some ("Type d'action invalide: " +:+ show (action_type action))
  else if is_str (action_type action) "email" then
    if negb (truthy_list (recipients (default no_config (action_config_of action))))
    then Some "Les destinataires email sont obligatoires"
    else None
  else if in_names (action_type action) ["webhook"; "slack"; "discord"] then
    let config := default no_config (action_config_of action) in
    if negb (truthy_str (url config)) && negb (truthy_str (webhook_url config))
    then Some ("L'URL est obligatoire pour " +:+ show (action_type action))
    else None
  else None.

Fixpoint validate_actions (actions : list rule_action) : option string :=
  match actions with
  | [] => None
  | action :: rest =>
      match validate_action action with
      | Some message => Some message
      | None => validate_actions rest
      end
  end.

Definition validate_rule (r : rule) : bool * string :=
  if negb (truthy_str (name r))
  then (false, "Le nom de la règle est obligatoire")
  else if negb (in_names (rule_type r) RULE_TYPES)
  then (false, "Type de règle invalide. Doit être: threshold, range, trend, pattern")
  else
    let conditions := default no_conditions (conditions r) in
    if negb (truthy_str (field conditions))
    then (false, "Le champ à surveiller est obligatoire")
    else
      let by_type : option string :=
        if is_str (rule_type r) "threshold" then
          if negb (truthy_str (operator conditions))
             || negb (in_names (operator conditions) OPERATORS)
          then Some "Opérateur invalide. Doit être: >, <, >=, <=, ==, !="
          else if value_is_None (threshold conditions)
          then Some "Le seuil est obligatoire pour une règle threshold"
          else None
        else if is_str (rule_type r) "range" then
          if value_is_None (min_value conditions) || value_is_None (max_value conditions)
          then Some "min_value et max_value sont obligatoires pour une règle range"
          else None
        else if in_names (rule_type r) ["trend"; "pattern"] then
          if negb (truthy_num (time_window conditions))
          then Some "time_window est obligatoire pour les règles trend/pattern"
          else None
        else None in
      match by_type with
      | Some message => (false, message)
      | None =>
          match validate_actions (default [] (actions r)) with
          | Some message => (false, message)
          | None =>
              if truthy_str (severity r) && negb (in_names (severity r) SEVERITIES)
              then (false, "Sévérité invalide. Doit être: low, medium, high, critical")
              else (true, "")
          end
      end.

(** ** The rule collection *)

(** The MongoDB collection [alert_rules]: documents by identifier. *)
Abbreviation collection := (gmap nat rule).

(** [collection.find_one({'name': n})] finds a document. *)
Definition name_taken (docs : collection) (n : option string) : bool :=
  bool_decide (map_Exists (fun _ doc => name doc = n) docs).

Definition fresh_stats : rule_stats :=
  {| total_triggers := Some 0%Z; last_7_days_triggers := Some 0%Z;
     avg_value_on_trigger := Some 0%Q; zones_affected := Some [] |}.

(** The metadata [create_rule] writes into the rule before inserting it. *)
Definition with_metadata (now : Q) (r : rule) : rule :=
  {| name := name r; description := description r; enabled := enabled r;
     rule_type := rule_type r; conditions := conditions r; actions := actions r;
     severity := severity r; priority := priority r; cooldown := cooldown r;
     created_at := Some now;
     updated_at := Some now;
     last_triggered := None;
     trigger_count := Some 0%Z;
     stats := match stats r with
              | None => Some fresh_stats
              | Some given => Some given
              end |}.

(** *** AlertRulesManager.create_rule

    Returns the collection after the call and [(success, message, rule_id)]. *)
Definition create_rule (docs : collection) (now : Q) (r : rule)
    : collection * (bool * string * option nat) :=
  let '(is_valid, error) := validate_rule r in
  if negb is_valid then (docs, (false, error, None))
  else if name_taken docs (name r)
  then (docs, (false, "Une règle avec le nom '" +:+ show (name r) +:+ "' existe déjà", None))
  else
    let rule_id := fresh (dom docs) in
    (<[rule_id := with_metadata now r]> docs, (true, "Règle créée avec succès", Some rule_id)).

(** *** AlertRulesManager.get_rule *)
Definition get_rule (docs : collection) (rule_id : nat) : option rule :=
  docs !! rule_id.

(** *** AlertRulesManager.check_cooldown *)
Definition check_cooldown (docs : collection) (now : Q) (rule_id : nat) : bool :=
  match get_rule docs rule_id with
  | None => false
  | Some r =>
      match last_triggered r with
      | None => true
      | Some last =>
          let cooldown := default 300%Q (cooldown r) in
          let time_since_last := (now - last)%Q in
          Qle_bool cooldown time_since_last
      end
  end.

(** *** AlertRulesManager.update_last_triggered *)

(** [list(set(current) | set(zones))]; the order of the result is whatever
    the set yields. *)
Definition merge_zones (current zones : list string) : list string :=
  elements ((list_to_set current : gset string) ∪ list_to_set zones).

Definition updated_stats (old : rule_stats) (zones : option (list string))
    (avg_value : option Q) : rule_stats :=
  let total := (default 0 (total_triggers old) + 1)%Z in
  {| total_triggers := Some total;
     last_7_days_triggers := last_7_days_triggers old;
     avg_value_on_trigger :=
       match avg_value with
       | Some avg =>
           let current_avg := default 0%Q (avg_value_on_trigger old) in
           if (1 <? total)%Z
           then Some ((current_avg * inject_Z (total - 1) + avg) / inject_Z total)%Q
           else Some avg
       | None => avg_value_on_trigger old
       end;
     zones_affected :=
       if truthy_list zones
       then Some (merge_zones (default [] (zones_affected old)) (default [] zones))
       else zones_affected old |}.

(** The document after [{'$set': {'last_triggered': now, 'stats': stats},
    '$inc': {'trigger_count': 1}}]. *)
Definition triggered (now : Q) (new_stats : rule_stats) (r : rule) : rule :=
  {| name := name r; description := description r; enabled := enabled r;
     rule_type := rule_type r; conditions := conditions r; actions := actions r;
     severity := severity r; priority := priority r; cooldown := cooldown r;
     created_at := created_at r; updated_at := updated_at r;
     last_triggered := Some now;
     trigger_count := Some (default 0 (trigger_count r) + 1)%Z;
     stats := Some new_stats |}.

Definition update_last_triggered (docs : collection) (now : Q) (rule_id : nat)
    (zones : option (list string)) (avg_value : option Q) : collection :=
  match get_rule docs rule_id with
  | None => docs
  | Some r =>
      let new_stats := updated_stats (default no_stats (stats r)) zones avg_value in
      <[rule_id := triggered now new_stats r]> docs
  end.

(** ** NotificationManager *)

(** What a notification does to the outside world. The payload of a request
    and the body of a mail are left out. *)
Inductive outbound : Type :=
| HttpPost (url : string)
| HttpGet (url : string)
| Mail (recipients : list string).

(** [s.upper()] on ASCII letters *)
Definition upper_char (c : ascii) : ascii :=
  let n := nat_of_ascii c in
  if Nat.leb 97 n && Nat.leb n 122 then ascii_of_nat (n - 32) else c.

Fixpoint upper (s : string) : string :=
  match s with
  | EmptyString => EmptyString
  | String c s' => String (upper_char c) (upper s')
  end.

Section Dispatcher.

(** The answer of the remote end to a request: its HTTP status code, or
    [None] when [requests] raises (time-out, refused connection, ...). *)
Variable http : outbound -> option nat.

(** [send_alert_email]: whether Flask-Mail delivered the message. *)
Variable send_alert_email : list string -> bool.

(** Each handler returns its verdict and the requests it made. *)
Definition _send_email (config : action_config) : bool * list outbound :=
  let recipients := default [] (recipients config) in
  match recipients with
  | [] => (false, [])
  | _ => (send_alert_email recipients, [Mail recipients])
  end.

Definition _send_webhook (config : action_config) : bool * list outbound :=
  if negb (truthy_str (url config)) then (false, [])
  else
    let url := default "" (url config) in
    let method := upper (default "POST" (method config)) in
    let request := if String.eqb method "POST" then HttpPost url else HttpGet url in
    match http request with
    | Some status_code => (Nat.ltb status_code 400, [request])
    | None => (false, [request])
    end.

Definition _send_slack (config : action_config) : bool * list outbound :=
  if negb (truthy_str (webhook_url config)) then (false, [])
  else
    let request := HttpPost (default "" (webhook_url config)) in
    match http request with
    | Some status_code => (Nat.eqb status_code 200, [request])
    | None => (false, [request])
    end.

Definition _send_discord (config : action_config) : bool * list outbound :=
  if negb (truthy_str (webhook_url config)) then (false, [])
  else
    let request := HttpPost (default "" (webhook_url config)) in
    match http request with
    | Some status_code =>
        (Nat.eqb status_code 200 || Nat.eqb status_code 204, [request])
    | None => (false, [request])
    end.

(** [self.handlers.get(action_type)] *)
Definition handlers (action_type : string)
    : option (action_config -> bool * list outbound) :=
  if String.eqb action_type "email" then Some _send_email
  else if String.eqb action_type "webhook" then Some _send_webhook
  else if String.eqb action_type "slack" then Some _send_slack
  else if String.eqb action_type "discord" then Some _send_discord
  else None.

(** *** NotificationManager.send_notification *)
Definition send_notification (action : rule_action) : bool * list outbound :=
  let action_type := default "email" (action_type action) in
  match handlers action_type with
  | None => (false, [])
  | Some handler => handler (default no_config (action_config_of action))
  end.

(** *** AlertMonitor._trigger_rule_actions

    The calls made to the dispatcher, in order: the action passed to
    [send_notification], its verdict and the requests it made. *)
Definition _trigger_rule_actions (r : rule)
    : list (rule_action * (bool * list outbound)) :=
  map (fun action => (action, send_notification action)) (default [] (actions r)).

End Dispatcher.

(** ** More of the rule collection *)

(** *** AlertRulesManager.delete_rule *)
Definition delete_rule (docs : collection) (rule_id : nat) : collection * (bool * string) :=
  match docs !! rule_id with
  | Some _ => (delete rule_id docs, (true, "Règle supprimée avec succès"))
  | None => (docs, (false, "Règle non trouvée"))
  end.

(** The document after [{'$set': {'enabled': new_state, 'updated_at': now}}]. *)
Definition toggled (now : Q) (new_state : bool) (r : rule) : rule :=
  {| name := name r; description := description r; enabled := Some new_state;
     rule_type := rule_type r; conditions := conditions r; actions := actions r;
     severity := severity r; priority := priority r; cooldown := cooldown r;
     created_at := created_at r; updated_at := Some now;
     last_triggered := last_triggered r; trigger_count := trigger_count r;
     stats := stats r |}.

(** *** AlertRulesManager.toggle_rule

    The update always modifies the document, since [enabled] changes. The
    log line written after the update reads [rule['name']]; on a document
    without a name that raises [KeyError('name')], which the handler turns
    into [(False, "'name'", False)] although the update is already done. *)
Definition toggle_rule (docs : collection) (now : Q) (rule_id : nat)
    : collection * (bool * string * bool) :=
  match get_rule docs rule_id with
  | None => (docs, (false, "Règle non trouvée", false))
  | Some r =>
      let new_state := negb (default false (enabled r)) in
      let docs' := <[rule_id := toggled now new_state r]> docs in
      match name r with
      | Some _ =>
          let state_str := if new_state then "activée" else "désactivée" in
          (docs', (true, "Règle " +:+ state_str, new_state))
      | None => (docs', (false, "'name'", false))
      end
  end.

(** *** AlertRulesManager.get_all_rules

    [find(query).sort('priority', 1)]: a document without a priority sorts
    before every number. The order among equal priorities is the store's;
    here it is the one a merge sort of the documents yields. *)
Definition priority_leb (x y : nat * rule) : bool :=
  match priority (snd x), priority (snd y) with
  | None, _ => true
  | Some _, None => false
  | Some a, Some b => (a <=? b)%Z
  end.

Definition priority_le (x y : nat * rule) : Prop := priority_leb x y = true.

#[global] Instance priority_le_dec x y : Decision (priority_le x y).
Proof. unfold priority_le. apply _. Defined.

(** The query [{'enabled': True}] matches the documents whose [enabled] is
    the boolean true. *)
Definition matches_query (enabled_only : bool) (doc : nat * rule) : bool :=
  if enabled_only
  then match enabled (snd doc) with Some true => true | _ => false end
  else true.

Definition get_all_rules (docs : collection) (enabled_only : bool) : list (nat * rule) :=
  merge_sort priority_le (List.filter (matches_query enabled_only) (map_to_list docs)).

(** ** AlertMonitor: the alert-check pass *)

(** [sum(values)], starting from the integer 0: adding anything but a
    number raises [TypeError]. *)
Fixpoint py_sum (acc : Q) (values : list value) : result Q :=
  match values with
  | [] => Ok acc
  | v :: rest =>
      match num_of v with
      | Some q => py_sum (acc + q)%Q rest
      | None => Raise TypeError
      end
  end.

(** [[log.get('value', 0) for log in matching_logs if log.get('value') is not None]] *)
Definition present_values (matching_logs : list event) : list value :=
  map (fun log => get_default log "value" (VNum 0))
      (List.filter (fun log => negb (is_None (get log "value"))) matching_logs).

(** [sum(values) / len(values) if values else 0] *)
Definition average_value (matching_logs : list event) : result Q :=
  let values := present_values matching_logs in
  match values with
  | [] => Ok 0%Q
  | _ =>
      total <- py_sum 0 values ;;
      Ok (total / inject_Z (Z.of_nat (length values)))%Q
  end.

(** [[log.get('zone', 'Unknown') for log in matching_logs]] *)
Definition zone_values (matching_logs : list event) : list value :=
  map (fun log => get_default log "zone" (VStr "Unknown")) matching_logs.

Definition is_list (v : value) : bool :=
  match v with
  | VList _ => true
  | _ => false
  end.

(** The zone names among the values, when all of them are text. *)
Fixpoint zone_names (zones : list value) : option (list string) :=
  match zones with
  | [] => Some []
  | VStr z :: rest => option_map (cons z) (zone_names rest)
  | _ :: _ => None
  end.

(** [list(set(names))]; the order is whatever the set yields. *)
Definition distinct_zones (names : list string) : list string :=
  elements (list_to_set names : gset string).

Record alert : Type := {
  alert_timestamp : Q;
  alert_zone : string;
  alert_severity : string;
  alert_message : string;
  alert_value : Q;
  alert_rule_id : nat;
  alert_rule_name : string;
  alert_matching_count : nat
}.

(** What one pass has done so far: the collection, the alerts collected and
    the calls made to the dispatcher, per rule. *)
Record pass_state : Type := {
  pass_docs : collection;
  pass_alerts : list alert;
  pass_dispatched : list (nat * list (rule_action * (bool * list outbound)))
}.

(** How the body of the loop ends for one rule: the loop goes on, or an
    exception leaves it for the handler of the pass. *)
Inductive step_end : Type :=
| Continue
| Abort.

Section AlertMonitor.

Variable fromisoformat : string -> option datetime.
Variable http : outbound -> option nat.
Variable send_alert_email : list string -> bool.

(** The clock; one pass reads it as a single instant. *)
Variable now : Q.

(** The recent events, as [_get_recent_logs_for_evaluation] fetched them. *)
Variable recent_logs : list event.

(** The body of [for rule in active_rules]. The statistics block of the
    collection holds zone names only: the result is [None] when the rule
    fires on events one of which carries a number, a boolean or null as its
    zone, which the code would store as such. A list as zone cannot be put
    in a set and raises; so do a value that is not a number in the average,
    and [rule['name']] on a document without a name. *)
Definition alert_rule_step (st : pass_state) (entry : nat * rule)
    : option (pass_state * step_end) :=
  let '(rule_id, r) := entry in
  if negb (check_cooldown (pass_docs st) now rule_id) then
    match name r with
    | Some _ => Some (st, Continue)
    | None => Some (st, Abort)
    end
  else
    let '(is_triggered, matching_logs) := evaluate_rule fromisoformat now r recent_logs in
    if is_triggered && negb (Nat.eqb (length matching_logs) 0) then
      match name r with
      | None => Some (st, Abort)
      | Some rule_name =>
          if existsb is_list (zone_values matching_logs) then Some (st, Abort)
          else
            match average_value matching_logs with
            | Raise _ => Some (st, Abort)
            | Ok avg_value =>
                match zone_names (zone_values matching_logs) with
                | None => None
                | Some names =>
                    let zones_affected := distinct_zones names in
                    let docs' :=
                      update_last_triggered (pass_docs st) now rule_id
                        (Some zones_affected) (Some avg_value) in
                    let triggered_alert :=
                      {| alert_timestamp := now;
                         alert_zone := String.concat ", " zones_affected;
                         alert_severity := default "medium" (severity r);
                         alert_message :=
                           "[Règle: " +:+ rule_name +:+ "] "
                           +:+ pretty (length matching_logs)
                           +:+ " événement(s) détecté(s)";
                         alert_value := avg_value;
                         alert_rule_id := rule_id;
                         alert_rule_name := rule_name;
                         alert_matching_count := length matching_logs |} in
                    Some ({| pass_docs := docs';
                             pass_alerts := pass_alerts st ++ [triggered_alert];
                             pass_dispatched :=
                               pass_dispatched st
                               ++ [(rule_id, _trigger_rule_actions http send_alert_email r)] |},
                          Continue)
                end
            end
      end
    else Some (st, Continue).

Fixpoint alert_rules_loop (st : pass_state) (active_rules : list (nat * rule))
    : option (pass_state * step_end) :=
  match active_rules with
  | [] => Some (st, Continue)
  | entry :: rest =>
      match alert_rule_step st entry with
      | None => None
      | Some (st', Abort) => Some (st', Abort)
      | Some (st', Continue) => alert_rules_loop st' rest
      end
  end.

(** *** AlertMonitor._evaluate_alert_rules

    Returns the collection after the pass, the alerts the method returns
    ([[]] when an exception reached its handler) and the calls made to the
    dispatcher. *)
Definition _evaluate_alert_rules (docs : collection)
    : option (collection * list alert
              * list (nat * list (rule_action * (bool * list outbound)))) :=
  let active_rules := get_all_rules docs true in
  let start := {| pass_docs := docs; pass_alerts := []; pass_dispatched := [] |} in
  match alert_rules_loop start active_rules with
  | None => None
  | Some (st, Continue) => Some (pass_docs st, pass_alerts st, pass_dispatched st)
  | Some (st, Abort) => Some (pass_docs st, [], pass_dispatched st)
  end.

End AlertMonitor.
(** ** What the specification means by "the event satisfies the operator" *)

(** [operator(v, threshold)] for the six operators of the data model; any
    other operator is satisfied by nothing. *)
Definition compare_with (operator : string) (v threshold : value) : result bool :=
  if String.eqb operator ">" then py_order Gt v threshold
  else if String.eqb operator "<" then py_order Lt v threshold
  else if String.eqb operator ">=" then py_order Ge v threshold
  else if String.eqb operator "<=" then py_order Le v threshold
  else if String.eqb operator "==" then Ok (py_eq v threshold)
  else if String.eqb operator "!=" then Ok (negb (py_eq v threshold))
  else Ok false.

(** The event has the field (present and not [None]) and its value satisfies
    the operator against the threshold. *)
Definition satisfies (field operator : string) (threshold : value) (log : event) : bool :=
  let v := get log field in
  negb (is_None v) &&
  match compare_with operator v threshold with
  | Ok b => b
  | Raise _ => false
  end.

(** The comparison the evaluator would make on this event is defined: the
    field is missing, or its value can be compared with the threshold. *)
Definition comparable (field operator : string) (threshold : value) (log : event) : bool :=
  let v := get log field in
  is_None v ||
  match compare_with operator v threshold with
  | Ok _ => true
  | Raise _ => false
  end.

(** The parameters a threshold rule is evaluated with, defaults applied. *)
Definition threshold_field (r : rule) : string :=
  default "value" (field (default no_conditions (conditions r))).
Definition threshold_operator (r : rule) : string :=
  default ">" (operator (default no_conditions (conditions r))).
Definition threshold_value (r : rule) : value :=
  default (VNum 0) (threshold (default no_conditions (conditions r))).
Definition filtered_logs (r : rule) (logs : list event) : list event :=
  _filter_logs logs (default no_filters (filters (default no_conditions (conditions r)))).

Definition is_threshold_rule (r : rule) : Prop :=
  enabled r = Some true /\ (rule_type r = None \/ rule_type r = Some "threshold").


(** Every comparison the evaluator makes on the filtered events is defined. *)
Definition all_comparable (r : rule) (logs : list event) : bool :=
  forallb (comparable (threshold_field r) (threshold_operator r) (threshold_value r))
          (filtered_logs r logs).

(** The threshold property as the specification words it, for one rule and
    one list of events. *)
Definition threshold_property (answer : bool * list event) (r : rule)
    (logs : list event) : Prop :=
  let sat := satisfies (threshold_field r) (threshold_operator r) (threshold_value r) in
  (fst answer = true <-> exists log, In log (filtered_logs r logs) /\ sat log = true) /\
  snd answer = List.filter sat (filtered_logs r logs).

(** ** Concrete rules and events *)

Definition event_of (fields : list (string * value)) : event := list_to_map fields.

Definition make_rule (type : string) (c : rule_conditions) : rule :=
  {| name := Some "rule"; description := None; enabled := Some true;
     rule_type := Some type; conditions := Some c; actions := None;
     severity := None; priority := None; cooldown := None;
     created_at := None; updated_at := None; last_triggered := None;
     trigger_count := None; stats := None |}.

(** Scenario 1 of the specification: temperature above 35 in zone A. *)
Definition zone_A_temperature : log_filters :=
  {| zone := Some ["A"]; sensor_type := Some ["temperature"];
     status := None; building := None |}.

Definition above_35 (f : option log_filters) : rule :=
  make_rule "threshold"
    {| field := Some "value"; operator := Some ">"; threshold := Some (VNum 35);
       min_value := None; max_value := None; time_window := None;
       event_count := None; filters := f |}.

Definition temperature (z : string) (v : value) : event :=
  event_of [("zone", VStr z); ("sensor_type", VStr "temperature"); ("value", v)].

Definition five_hot_events : list event :=
  [temperature "A" (VNum 36); temperature "A" (VNum 38); temperature "A" (VNum 40);
   temperature "A" (VNum 42); temperature "A" (VNum 44)].

(** A reading whose value is text next to a numeric one. *)
Definition mixed_events : list event :=
  [temperature "A" (VNum 40); temperature "A" (VStr "n/a")].

(** A parser that rejects everything, where the timestamps play no role. *)
Definition no_parse : string -> option datetime := fun _ => None.

(** ** Pattern rules *)

Definition pattern_window (r : rule) : Q :=
  default 300%Q (time_window (default no_conditions (conditions r))).
Definition pattern_count (r : rule) : Z :=
  default 3%Z (event_count (default no_conditions (conditions r))).

Definition is_pattern_rule (r : rule) : Prop :=
  enabled r = Some true /\ rule_type r = Some "pattern".

(** The event counts for the pattern: its timestamp, as the evaluator reads
    it, is not older than [now - time_window]. A timestamp that is missing
    or does not parse is read as [now]. *)
Definition qualifies (fromisoformat : string -> option datetime) (now : Q)
    (r : rule) (log : event) : bool :=
  match _parse_timestamp fromisoformat now (timestamp_of log) with
  | Naive t => Qle_bool (now - pattern_window r) t
  | Aware _ => false
  end.

Definition qualifying (fromisoformat : string -> option datetime) (now : Q)
    (r : rule) (logs : list event) : list event :=
  List.filter (qualifies fromisoformat now r) (filtered_logs r logs).

(** No timestamp among the events parses to a timezone-aware [datetime]. *)
Definition naive_timestamps (fromisoformat : string -> option datetime) (now : Q)
    (logs : list event) : bool :=
  forallb (fun log =>
             match _parse_timestamp fromisoformat now (timestamp_of log) with
             | Naive _ => true
             | Aware _ => false
             end) logs.

(** The pattern property as the specification words it. *)
Definition pattern_property (answer : bool * list event) (recent : list event)
    (event_count : Z) : Prop :=
  (fst answer = true <-> (event_count <= Z.of_nat (length recent))%Z) /\
  Z.of_nat (length (snd answer)) = Z.min event_count (Z.of_nat (length recent)) /\
  snd answer = firstn (Z.to_nat event_count) recent.

(** A parser for the plain form [YYYY-MM-DDTHH:MM:SS], enough for the
    examples: seconds since 1970-01-01T00:00:00. *)
Definition digit (c : ascii) : option Z :=
  let n := nat_of_ascii c in
  if Nat.leb 48 n && Nat.leb n 57 then Some (Z.of_nat (n - 48)) else None.

Fixpoint number_from (acc : Z) (s : string) : option Z :=
  match s with
  | EmptyString => Some acc
  | String c s' =>
      match digit c with
      | Some d => number_from (10 * acc + d) s'
      | None => None
      end
  end.

Definition number (s : string) : option Z :=
  match s with
  | EmptyString => None
  | _ => number_from 0 s
  end.

Definition days_from_civil (y m d : Z) : Z :=
  let y' := if (m <=? 2)%Z then (y - 1)%Z else y in
  let era := (y' / 400)%Z in
  let yoe := (y' - era * 400)%Z in
  let mp := ((m + 9) mod 12)%Z in
  let doy := ((153 * mp + 2) / 5 + d - 1)%Z in
  let doe := (yoe * 365 + yoe / 4 - yoe / 100 + doy)%Z in
  (era * 146097 + doe - 719468)%Z.

Definition plain_isoformat (s : string) : option datetime :=
  if negb (Nat.eqb (String.length s) 19) then None else
  match number (substring 0 4 s), number (substring 5 2 s), number (substring 8 2 s),
        number (substring 11 2 s), number (substring 14 2 s), number (substring 17 2 s) with
  | Some y, Some mo, Some d, Some h, Some mi, Some sec =>
      if is_str (Some (substring 4 1 s)) "-" && is_str (Some (substring 7 1 s)) "-"
         && is_str (Some (substring 10 1 s)) "T" && is_str (Some (substring 13 1 s)) ":"
         && is_str (Some (substring 16 1 s)) ":"
      then Some (Naive (inject_Z (days_from_civil y mo d * 86400 + h * 3600 + mi * 60 + sec)))
      else None
  | _, _, _, _, _, _ => None
  end.

(** Scenario 2 of the specification: three fire alarms within five minutes. *)
Definition fire_alarm_pattern : rule :=
  make_rule "pattern"
    {| field := Some "sensor_type"; operator := Some "=="; threshold := Some (VStr "fire_alarm");
       min_value := None; max_value := None; time_window := Some 300%Q;
       event_count := Some 3%Z;
       filters := Some {| zone := None; sensor_type := Some ["fire_alarm"];
                          status := None; building := None |} |}.

Definition fire_alarm (z ts : string) : event :=
  event_of [("zone", VStr z); ("sensor_type", VStr "fire_alarm"); ("@timestamp", VStr ts)].

(** 2024-01-15T10:30:00 *)
Definition half_past_ten : Q := inject_Z 1705314600.

Definition four_alarms : list event :=
  [fire_alarm "B" "2024-01-15T10:29:50.120Z"; fire_alarm "C" "2024-01-15T10:29:40.000Z";
   fire_alarm "D" "2024-01-15T10:29:20.500Z"; fire_alarm "E" "2024-01-15T10:29:05.250Z"].

Definition two_alarms : list event :=
  [fire_alarm "B" "2024-01-15T10:29:50.120Z"; fire_alarm "C" "2024-01-15T10:29:40.000Z"].

(** ** Cooldown and trigger statistics *)

(** The counters as the code reads them: [rule.get('trigger_count', 0)] and
    [stats.get('total_triggers', 0)]. *)
Definition trigger_count_of (r : rule) : Z := default 0%Z (trigger_count r).
Definition total_triggers_of (r : rule) : Z :=
  default 0%Z (total_triggers (default no_stats (stats r))).
Definition avg_value_of (r : rule) : Q :=
  default 0%Q (avg_value_on_trigger (default no_stats (stats r))).

(** One call of [update_last_triggered]: the clock, the zones and the
    average value it is given. *)
Definition firing : Type := Q * option (list string) * option Q.

Definition record_trigger (rule_id : nat) (docs : collection) (f : firing) : collection :=
  let '(now, zones, avg_value) := f in
  update_last_triggered docs now rule_id zones avg_value.

(** A sequence of calls of [update_last_triggered] on one rule. *)
Definition record_triggers (docs : collection) (rule_id : nat) (firings : list firing)
    : collection :=
  fold_left (record_trigger rule_id) firings docs.

(** The same sequence, seen on the document of the rule. *)
Definition fired (r : rule) (f : firing) : rule :=
  let '(now, zones, avg_value) := f in
  triggered now (updated_stats (default no_stats (stats r)) zones avg_value) r.

Definition sum_Q (values : list Q) : Q := fold_right Qplus 0%Q values.

(** The arithmetic mean of a non-empty list. *)
Definition mean (values : list Q) : Q :=
  (sum_Q values / inject_Z (Z.of_nat (length values)))%Q.

(** A rule as the seeding script and the tests write them: a threshold rule
    with its statistics block, here one whose [total_triggers] is not 0. *)
Definition rule_with_stats (given : option rule_stats) : rule :=
  {| name := Some "CO2"; description := None; enabled := Some true;
     rule_type := Some "threshold";
     conditions := Some {| field := Some "value"; operator := Some ">";
                           threshold := Some (VNum 1000); min_value := None;
                           max_value := None; time_window := None;
                           event_count := None; filters := None |};
     actions := Some []; severity := Some "high"; priority := Some 2%Z;
     cooldown := Some 300%Q; created_at := None; updated_at := None;
     last_triggered := None; trigger_count := None; stats := given |}.

Definition imported_stats : rule_stats :=
  {| total_triggers := Some 5%Z; last_7_days_triggers := Some 0%Z;
     avg_value_on_trigger := Some 100%Q; zones_affected := Some [] |}.

(** A stored rule with the given cooldown and last firing. *)
Definition stored_rule (cd : option Q) (last : option Q) : rule :=
  {| name := Some "CO2"; description := None; enabled := Some true;
     rule_type := Some "threshold"; conditions := None; actions := None;
     severity := None; priority := None; cooldown := cd;
     created_at := None; updated_at := None;
     last_triggered := last; trigger_count := None; stats := None |}.

(** The rule with its [enabled] field replaced ([None] removes the key). *)
Definition with_enabled (e : option bool) (r : rule) : rule :=
  {| name := name r; description := description r; enabled := e;
     rule_type := rule_type r; conditions := conditions r; actions := actions r;
     severity := severity r; priority := priority r; cooldown := cooldown r;
     created_at := created_at r; updated_at := updated_at r;
     last_triggered := last_triggered r; trigger_count := trigger_count r;
     stats := stats r |}.

(** ** Validation and dispatch *)

(** The rule with its action list replaced. *)
Definition with_actions (l : option (list rule_action)) (r : rule) : rule :=
  {| name := name r; description := description r; enabled := enabled r;
     rule_type := rule_type r; conditions := conditions r; actions := l;
     severity := severity r; priority := priority r; cooldown := cooldown r;
     created_at := created_at r; updated_at := updated_at r;
     last_triggered := last_triggered r; trigger_count := trigger_count r;
     stats := stats r |}.

(** A pattern rule that names no field to watch. *)
Definition pattern_without_field : rule :=
  make_rule "pattern"
    {| field := None; operator := None; threshold := None; min_value := None;
       max_value := None; time_window := Some 300%Q; event_count := Some 3%Z;
       filters := None |}.

(** A webhook action configured through [webhook_url] only. *)
Definition webhook_url_only : rule_action :=
  {| action_type := Some "webhook";
     action_config_of := Some {| recipients := None; url := None;
                                 webhook_url := Some "https://example.org/hook";
                                 method := None |};
     action_enabled := Some true |}.

(** The first rule of [AlertRule.example_rules()]: an enabled email action
    and a disabled webhook action with a placeholder address. *)
Definition example_email : rule_action :=
  {| action_type := Some "email";
     action_config_of :=
       Some {| recipients := Some ["admin@smartbuilding.com"; "tech@smartbuilding.com"];
               url := None; webhook_url := None; method := None |};
     action_enabled := Some true |}.

Definition example_webhook : rule_action :=
  {| action_type := Some "webhook";
     action_config_of :=
       Some {| recipients := None;
               url := Some "https://hooks.slack.com/services/YOUR/WEBHOOK/URL";
               webhook_url := None; method := Some "POST" |};
     action_enabled := Some false |}.

Definition critical_temperature : rule :=
  {| name := Some "Température Critique - Zone A";
     description := Some "Alerte si température > 35°C dans la zone A";
     enabled := Some true; rule_type := Some "threshold";
     conditions :=
       Some {| field := Some "value"; operator := Some ">"; threshold := Some (VNum 35);
               min_value := None; max_value := None; time_window := None;
               event_count := None;
               filters := Some {| zone := Some ["A"]; sensor_type := Some ["temperature"];
                                  status := Some []; building := Some "Smart Building A" |} |};
     actions := Some [example_email; example_webhook];
     severity := Some "critical"; priority := Some 1%Z; cooldown := Some 600%Q;
     created_at := None; updated_at := None; last_triggered := None;
     trigger_count := Some 0%Z; stats := Some fresh_stats |}.

(** A remote end that accepts every request, and a mail server that
    delivers every message. *)
Definition always_200 : outbound -> option nat := fun _ => Some 200.
Definition mail_delivered : list string -> bool := fun _ => true.

(** The dispatcher is invoked exactly for the enabled actions of the rule. *)
Definition enabled_actions (r : rule) : list rule_action :=
  List.filter (fun action => default false (action_enabled action)) (default [] (actions r)).

(** ** Filters, ranges and timestamps *)

(** The event passes every filter that is set. *)
Definition passes (f : log_filters) (log : event) : bool :=
  (negb (nonempty_filter (zone f)) || member (get log "zone") (default [] (zone f)))
  && (negb (nonempty_filter (sensor_type f))
      || member (get log "sensor_type") (default [] (sensor_type f)))
  && (negb (nonempty_filter (status f)) || member (get log "status") (default [] (status f)))
  && (negb (truthy_str (building f)) || match_building (default "" (building f)) log).

Definition is_range_rule (r : rule) : Prop :=
  enabled r = Some true /\ rule_type r = Some "range".

(** The field of the event is missing, [None] or a number. *)
Definition numeric_or_missing (field : string) (log : event) : bool :=
  let v := get log field in
  is_None v || match num_of v with Some _ => true | None => false end.

(** The field of the event is a number strictly outside [[low, high]]. *)
Definition outside (field : string) (low high : Q) (log : event) : bool :=
  match num_of (get log field) with
  | Some q => Qlt_bool q low || Qlt_bool high q
  | None => false
  end.

(** The text has neither a ['Z'] nor a ['.']. *)
Fixpoint plain (s : string) : bool :=
  match s with
  | EmptyString => true
  | String c s' => negb (Ascii.eqb c "Z"%char) && negb (Ascii.eqb c "."%char) && plain s'
  end.

(** The timestamp is not a text that [fromisoformat] reads. *)
Definition unreadable (fromisoformat : string -> option datetime) (v : value) : Prop :=
  match v with
  | VStr s => fromisoformat (before_dot (remove_Z s)) = None
  | _ => True
  end.

(** Scenario 3 of the specification: CO2 outside [400, 1000]. *)
Definition co2_range : rule :=
  make_rule "range"
    {| field := Some "value"; operator := Some "out_of_range"; threshold := None;
       min_value := Some (VNum 400); max_value := Some (VNum 1000);
       time_window := None; event_count := None; filters := None |}.

Definition reading (v : Q) : event := event_of [("value", VNum v)].

Definition co2_readings : list event :=
  [reading 300; reading 500; reading 800; reading 1200; reading 1500].

(** A pattern rule that asks for no event at all. *)
Definition zero_count_pattern : rule :=
  make_rule "pattern"
    {| field := Some "value"; operator := None; threshold := None; min_value := None;
       max_value := None; time_window := Some 300%Q; event_count := Some 0%Z;
       filters := None |}.

(** ** Well-formed rules, as the validation section of the data model lists
    them *)

Definition action_ok (action : rule_action) : bool :=
  let config := default no_config (action_config_of action) in
  in_names (action_type action) ACTION_TYPES
  && (negb (is_str (action_type action) "email") || truthy_list (recipients config))
  && (negb (in_names (action_type action) ["webhook"; "slack"; "discord"])
      || truthy_str (url config) || truthy_str (webhook_url config)).

Definition conditions_ok (r : rule) : bool :=
  let c := default no_conditions (conditions r) in
  if is_str (rule_type r) "threshold"
  then in_names (operator c) OPERATORS && negb (value_is_None (threshold c))
  else if is_str (rule_type r) "range"
  then negb (value_is_None (min_value c)) && negb (value_is_None (max_value c))
  else truthy_num (time_window c).

Definition well_formed (r : rule) : bool :=
  truthy_str (name r)
  && in_names (rule_type r) RULE_TYPES
  && truthy_str (field (default no_conditions (conditions r)))
  && conditions_ok r
  && forallb action_ok (default [] (actions r))
  && (negb (truthy_str (severity r)) || in_names (severity r) SEVERITIES).

(** An SMS action, which the schema lists. *)
Definition sms_action : rule_action :=
  {| action_type := Some "sms"; action_config_of := None; action_enabled := Some true |}.

(** A Slack action configured through [url] only. *)
Definition slack_url_only : rule_action :=
  {| action_type := Some "slack";
     action_config_of := Some {| recipients := None;
                                 url := Some "https://hooks.slack.com/services/T/B/X";
                                 webhook_url := None; method := None |};
     action_enabled := Some true |}.

(** A webhook action asking for the PUT method. *)
Definition put_config : action_config :=
  {| recipients := None; url := Some "https://example.org/hook";
     webhook_url := None; method := Some "put" |}.

Definition put_webhook : rule_action :=
  {| action_type := Some "webhook"; action_config_of := Some put_config;
     action_enabled := Some true |}.

(** ** The collection as a whole *)

(** No two stored rules bear the same name. *)
Definition unique_names (docs : collection) : Prop :=
  forall i j r s, docs !! i = Some r -> docs !! j = Some s -> name r = name s -> i = j.

(** The effective cooldown of a rule, in seconds. *)
Definition cooldown_of (r : rule) : Q := default 300%Q (cooldown r).

(** ** The alert-check pass *)

(** The numeric values of the [value] field of the events that have one. *)
Definition numeric_values (logs : list event) : list Q :=
  omap (fun log => num_of (get log "value")) logs.

(** The zone of the event is absent, a text or a list. *)
Definition zone_is_text_or_list (log : event) : bool :=
  match log !! "zone" with
  | None | Some (VStr _) | Some (VList _) => true
  | Some _ => false
  end.

(** A collection holding the first example rule under identifier 1 and a
    disabled copy of it under identifier 2, and readings that trigger it. *)
Definition hot_reading (z : string) (v : Q) : event :=
  event_of [("zone", VStr z); ("sensor_type", VStr "temperature"); ("value", VNum v);
            ("building", VStr "Smart Building A")].

Definition hot_readings : list event :=
  [hot_reading "A" 36; hot_reading "A" 38; hot_reading "B" 50; hot_reading "A" 43].

Definition seeded : collection :=
  {[ 1 := critical_temperature; 2 := with_enabled (Some false) critical_temperature ]}.

(** The rule of the entry fired in this step. *)
Definition fired_in_step (fromisoformat : string -> option datetime)
    (http : outbound -> option nat) (send_alert_email : list string -> bool) (now : Q)
    (recent_logs : list event)
    (st : pass_state) (entry : nat * rule) (st' : pass_state) : Prop :=
  exists matched rule_name avg_value names stored,
    check_cooldown (pass_docs st) now (fst entry) = true /\
    get_rule (pass_docs st) (fst entry) = Some stored /\
    evaluate_rule fromisoformat now (snd entry) recent_logs = (true, matched) /\
    matched <> [] /\
    name (snd entry) = Some rule_name /\
    average_value matched = Ok avg_value /\
    zone_names (zone_values matched) = Some names /\
    pass_docs st'
    = update_last_triggered (pass_docs st) now (fst entry)
        (Some (distinct_zones names)) (Some avg_value) /\
    (exists a,
       pass_alerts st' = pass_alerts st ++ [a] /\
       alert_rule_id a = fst entry /\ alert_rule_name a = rule_name /\
       alert_value a = avg_value /\ alert_matching_count a = length matched /\
       alert_severity a = default "medium" (severity (snd entry))) /\
    pass_dispatched st'
    = pass_dispatched st
      ++ [(fst entry, _trigger_rule_actions http send_alert_email (snd entry))].


(** The two documents define the same rule: they differ at most in
    [last_triggered], [trigger_count], [stats] and the dates. *)
Definition same_definition (x y : rule) : Prop :=
  name x = name y /\ rule_type x = rule_type y /\ conditions x = conditions y /\
  actions x = actions y /\ enabled x = enabled y /\ severity x = severity y /\
  priority x = priority y /\ cooldown x = cooldown y.

(** The seeded collection with a third rule that fired 100 seconds before
    the time 1000 and has a cooldown of 300 seconds. *)
Definition monitored : collection :=
  <[ 3 := stored_rule (Some 300%Q) (Some 900%Q) ]> seeded.
(** * Properties *)

(** ** Helper lemmas *)

Lemma threshold_test_compare_with operator v threshold :
  threshold_test operator v threshold = compare_with operator v threshold.
Proof.
  unfold threshold_test, compare_with, and_then.
  destruct (String.eqb_spec operator ">") as [-> | _]; simpl.
  { destruct (py_order Gt v threshold) as [[] | e]; reflexivity. }
  destruct (String.eqb_spec operator "<") as [-> | _]; simpl.
  { destruct (py_order Lt v threshold) as [[] | e]; reflexivity. }
  destruct (String.eqb_spec operator ">=") as [-> | _]; simpl.
  { destruct (py_order Ge v threshold) as [[] | e]; reflexivity. }
  destruct (String.eqb_spec operator "<=") as [-> | _]; simpl.
  { destruct (py_order Le v threshold) as [[] | e]; reflexivity. }
  destruct (String.eqb_spec operator "==") as [-> | _]; simpl.
  { destruct (py_eq v threshold); reflexivity. }
  destruct (String.eqb_spec operator "!=") as [-> | _]; simpl.
  { destruct (py_eq v threshold); reflexivity. }
  reflexivity.
Qed.

Lemma threshold_loop_spec field operator threshold logs :
  threshold_loop field operator threshold logs =
  if forallb (comparable field operator threshold) logs
  then Ok (List.filter (satisfies field operator threshold) logs)
  else Raise TypeError.
Proof.
  induction logs as [| log rest IH]; simpl; [reflexivity |].
  unfold comparable at 1, satisfies at 1.
  destruct (is_None (get log field)); simpl; [exact IH |].
  rewrite threshold_test_compare_with.
  destruct (compare_with operator (get log field) threshold) as [b | []]; simpl;
    [| reflexivity].
  rewrite IH.
  destruct (forallb (comparable field operator threshold) rest); simpl;
    [destruct b |]; reflexivity.
Qed.

Lemma nonempty_filter_existsb {A : Type} (p : A -> bool) (l : list A) :
  negb (Nat.eqb (length (List.filter p l)) 0) = existsb p l.
Proof.
  induction l as [| x l IH]; simpl; [reflexivity |].
  destruct (p x); simpl; [reflexivity | exact IH].
Qed.

Lemma _evaluate_threshold_spec (r : rule) (logs : list event) :
  _evaluate_threshold r logs =
  let sat := satisfies (threshold_field r) (threshold_operator r) (threshold_value r) in
  if forallb (comparable (threshold_field r) (threshold_operator r) (threshold_value r))
             (filtered_logs r logs)
  then Ok (existsb sat (filtered_logs r logs), List.filter sat (filtered_logs r logs))
  else Raise TypeError.
Proof.
  unfold _evaluate_threshold.
  fold (threshold_field r) (threshold_operator r) (threshold_value r) (filtered_logs r logs).
  rewrite threshold_loop_spec. cbv zeta.
  destruct (forallb _ (filtered_logs r logs)); simpl; [| reflexivity].
  now rewrite nonempty_filter_existsb.
Qed.

Lemma evaluate_rule_threshold fromisoformat now (r : rule) (logs : list event) :
  is_threshold_rule r ->
  evaluate_rule fromisoformat now r logs =
  match _evaluate_threshold r logs with
  | Ok answer => answer
  | Raise _ => (false, [])
  end.
Proof.
  intros [Hen Hty]. unfold evaluate_rule. rewrite Hen. simpl.
  destruct Hty as [-> | ->]; reflexivity.
Qed.

(** ** Threshold rules *)

(** C1 (as stated, refuted): with one numeric reading above the threshold and
    one textual reading in the same field, an event satisfies the operator
    and yet [evaluate_rule] answers [(False, [])], because the comparison of
    the text with the number raises inside the evaluator. *)
Lemma threshold_property_fails_on_mixed_types :
  is_threshold_rule (above_35 None) /\
  _evaluate_threshold (above_35 None) mixed_events = Raise TypeError /\
  evaluate_rule no_parse 0 (above_35 None) mixed_events = (false, []) /\
  ~ threshold_property (evaluate_rule no_parse 0 (above_35 None) mixed_events)
      (above_35 None) mixed_events.
Proof.
  split; [split; [reflexivity | right; reflexivity] |].
  split; [reflexivity |].
  split; [reflexivity |].
  intros [Htrig _].
  assert (Hsat : exists log, In log (filtered_logs (above_35 None) mixed_events) /\
                 satisfies (threshold_field (above_35 None))
                   (threshold_operator (above_35 None))
                   (threshold_value (above_35 None)) log = true).
  { exists (temperature "A" (VNum 40)). split; [left; reflexivity | reflexivity]. }
  apply Htrig in Hsat. discriminate Hsat.
Qed.

(** C1 (amended): for an enabled threshold rule, when every filtered event
    whose field is present can be compared with the threshold,
    [evaluate_rule] triggers iff some filtered event has the field and
    satisfies the operator, and the matched list is exactly the satisfying
    filtered events, in order; events without the field (or with [None]) are
    skipped and never matched. When some comparison is undefined the answer
    is [(False, [])]. *)
Theorem threshold_evaluate fromisoformat now (r : rule) (logs : list event) :
  is_threshold_rule r ->
  (all_comparable r logs = true ->
     threshold_property (evaluate_rule fromisoformat now r logs) r logs) /\
  (all_comparable r logs = false ->
     evaluate_rule fromisoformat now r logs = (false, [])) /\
  (forall log, In log (snd (evaluate_rule fromisoformat now r logs)) ->
     is_None (get log (threshold_field r)) = false).
Proof.
  intros Hr. rewrite (evaluate_rule_threshold _ _ _ _ Hr), _evaluate_threshold_spec.
  fold (all_comparable r logs). cbv zeta.
  destruct (all_comparable r logs); simpl.
  - split; [intros _ | split; [discriminate |]].
    + split; simpl; [| reflexivity]. rewrite existsb_exists. reflexivity.
    + intros log Hin. apply filter_In in Hin as [_ Hsat].
      unfold satisfies in Hsat. apply andb_prop in Hsat as [Hsome _].
      now apply negb_true_iff in Hsome.
  - split; [discriminate | split; [reflexivity |]].
    intros log [].
Qed.

(** Scenario 1 of the specification, through the theorem: five readings
    36..44 in zone A all match. *)
Lemma threshold_evaluate_witness :
  is_threshold_rule (above_35 (Some zone_A_temperature)) /\
  all_comparable (above_35 (Some zone_A_temperature)) five_hot_events = true /\
  threshold_property
    (evaluate_rule no_parse 0 (above_35 (Some zone_A_temperature)) five_hot_events)
    (above_35 (Some zone_A_temperature)) five_hot_events.
Proof.
  assert (Hr : is_threshold_rule (above_35 (Some zone_A_temperature)))
    by (split; [reflexivity | right; reflexivity]).
  split; [exact Hr |].
  split; [reflexivity |].
  apply (threshold_evaluate no_parse 0 _ five_hot_events Hr).
  reflexivity.
Defined.

Example scenario_1 :
  evaluate_rule no_parse 0 (above_35 (Some zone_A_temperature)) five_hot_events
  = (true, five_hot_events).
Proof. vm_compute. reflexivity. Qed.

(** ** Pattern rules *)

Lemma filter_r_ge_naive fromisoformat now cutoff (logs : list event) :
  naive_timestamps fromisoformat now logs = true ->
  filter_r (fun log => ge_naive (_parse_timestamp fromisoformat now (timestamp_of log)) cutoff)
           logs
  = Ok (List.filter
          (fun log =>
             match _parse_timestamp fromisoformat now (timestamp_of log) with
             | Naive t => Qle_bool cutoff t
             | Aware _ => false
             end) logs).
Proof.
  induction logs as [| log rest IH]; simpl; [reflexivity |].
  intros Hnaive. apply andb_prop in Hnaive as [Hlog Hrest].
  rewrite (IH Hrest).
  destruct (_parse_timestamp fromisoformat now (timestamp_of log)) as [t | t];
    [| discriminate Hlog].
  simpl. destruct (Qle_bool cutoff t); reflexivity.
Qed.

Lemma _evaluate_pattern_spec fromisoformat now (r : rule) (logs : list event) :
  naive_timestamps fromisoformat now (filtered_logs r logs) = true ->
  _evaluate_pattern fromisoformat now r logs =
  Ok (if (pattern_count r <=? Z.of_nat (length (qualifying fromisoformat now r logs)))%Z
      then (true, slice_to (qualifying fromisoformat now r logs) (pattern_count r))
      else (false, [])).
Proof.
  intros Hnaive. unfold _evaluate_pattern.
  fold (pattern_window r) (pattern_count r) (filtered_logs r logs).
  pose proof (filter_length_le (qualifies fromisoformat now r) (filtered_logs r logs)) as Hle.
  fold (qualifying fromisoformat now r logs) in Hle.
  destruct (Z.leb_spec (pattern_count r) (Z.of_nat (length (filtered_logs r logs)))) as [Hk | Hk].
  - rewrite (filter_r_ge_naive _ _ _ _ Hnaive). simpl.
    fold (qualifies fromisoformat now r). fold (qualifying fromisoformat now r logs).
    destruct (pattern_count r <=? _)%Z; reflexivity.
  - destruct (Z.leb_spec (pattern_count r) (Z.of_nat (length (qualifying fromisoformat now r logs))));
      [lia | reflexivity].
Qed.

Lemma evaluate_rule_pattern fromisoformat now (r : rule) (logs : list event) :
  is_pattern_rule r ->
  evaluate_rule fromisoformat now r logs =
  match _evaluate_pattern fromisoformat now r logs with
  | Ok answer => answer
  | Raise _ => (false, [])
  end.
Proof.
  intros [Hen Hty]. unfold evaluate_rule. rewrite Hen, Hty. reflexivity.
Qed.




Example scenario_2 :
  evaluate_rule plain_isoformat half_past_ten fire_alarm_pattern four_alarms
  = (true, firstn 3 four_alarms).
Proof. vm_compute. reflexivity. Qed.

(** ** Dispatch on the rule type *)

(** C8: a rule whose [rule_type] is ['trend'], or is outside
    {threshold, range, pattern, trend}, evaluates to [(False, [])] on every
    list of events; [evaluate_rule] is a total function and returns without
    an exception. *)
Theorem evaluate_rule_trend_or_unknown fromisoformat now (r : rule) (logs : list event)
    (type : string) :
  rule_type r = Some type ->
  type = "trend" \/ ~ In type RULE_TYPES ->
  evaluate_rule fromisoformat now r logs = (false, []).
Proof.
  intros Hty Hcase. unfold evaluate_rule. rewrite Hty.
  destruct (negb (default false (enabled r))); [reflexivity |].
  destruct Hcase as [-> | Hout]; [reflexivity |].
  simpl in *.
  destruct (String.eqb_spec type "threshold") as [-> | _]; [tauto |].
  destruct (String.eqb_spec type "range") as [-> | _]; [tauto |].
  destruct (String.eqb_spec type "pattern") as [-> | _]; [tauto |].
  destruct (String.eqb_spec type "trend") as [-> | _]; [tauto |].
  reflexivity.
Qed.

Lemma evaluate_rule_trend_or_unknown_witness :
  evaluate_rule plain_isoformat half_past_ten
    (make_rule "trend" no_conditions) four_alarms = (false, []) /\
  evaluate_rule plain_isoformat half_past_ten
    (make_rule "anomaly" no_conditions) mixed_events = (false, []).
Proof.
  split.
  - apply (evaluate_rule_trend_or_unknown _ _ _ _ "trend"); [reflexivity | left; reflexivity].
  - apply (evaluate_rule_trend_or_unknown _ _ _ _ "anomaly"); [reflexivity |].
    right. simpl. intros [H | [H | [H | [H | []]]]]; discriminate H.
Defined.

(** C9: a rule whose [enabled] field is false or absent evaluates to
    [(False, [])] on every list of events, whatever its conditions: the
    events are not looked at. *)
Theorem evaluate_rule_disabled fromisoformat now (r : rule) (logs : list event) :
  enabled r = Some false \/ enabled r = None ->
  evaluate_rule fromisoformat now r logs = (false, []).
Proof.
  intros [Hen | Hen]; unfold evaluate_rule; rewrite Hen; reflexivity.
Qed.

Lemma evaluate_rule_disabled_witness :
  evaluate_rule no_parse 0
    (with_enabled (Some false) (above_35 (Some zone_A_temperature))) five_hot_events
  = (false, []) /\
  evaluate_rule no_parse 0 (with_enabled None (above_35 None)) mixed_events = (false, []).
Proof.
  split.
  - apply evaluate_rule_disabled. left. reflexivity.
  - apply evaluate_rule_disabled. right. reflexivity.
Defined.

(** ** Cooldown *)

(** C6: for a stored rule, [check_cooldown] answers true when the rule has
    no [last_triggered]; otherwise it answers true iff
    [now - last_triggered >= cooldown] (300 s when the rule has no
    cooldown). With a cooldown of 300 s it answers false 100 s after the
    last firing and true 400 s after it. *)
Theorem check_cooldown_ready (docs : collection) (now : Q) (rule_id : nat) (r : rule) :
  docs !! rule_id = Some r ->
  (last_triggered r = None -> check_cooldown docs now rule_id = true) /\
  (forall last, last_triggered r = Some last ->
     (check_cooldown docs now rule_id = true <->
      (default 300 (cooldown r) <= now - last)%Q)) /\
  (cooldown r = Some 300%Q -> last_triggered r = Some (now - 100)%Q ->
     check_cooldown docs now rule_id = false) /\
  (cooldown r = Some 300%Q -> last_triggered r = Some (now - 400)%Q ->
     check_cooldown docs now rule_id = true).
Proof.
  intros Hr. unfold check_cooldown, get_rule. rewrite Hr.
  split; [intros ->; reflexivity |].
  split; [intros last ->; apply Qle_bool_iff |].
  split; intros -> ->; simpl.
  - destruct (Qle_bool 300 (now - (now - 100))) eqn:E; [| reflexivity].
    apply Qle_bool_iff in E. lra.
  - apply Qle_bool_iff. lra.
Qed.

Lemma check_cooldown_ready_witness :
  check_cooldown {[ 7 := stored_rule (Some 300%Q) (Some (1000 - 100)%Q) ]} 1000 7 = false /\
  check_cooldown {[ 7 := stored_rule (Some 300%Q) (Some (1000 - 400)%Q) ]} 1000 7 = true /\
  check_cooldown {[ 7 := stored_rule (Some 300%Q) None ]} 1000 7 = true.
Proof.
  pose proof (fun last =>
    check_cooldown_ready {[ 7 := stored_rule (Some 300%Q) last ]} 1000 7
      (stored_rule (Some 300%Q) last) (lookup_singleton_eq _ _)) as H.
  split; [| split].
  - exact (proj1 (proj2 (proj2 (H (Some (1000 - 100)%Q)))) eq_refl eq_refl).
  - exact (proj2 (proj2 (proj2 (H (Some (1000 - 400)%Q)))) eq_refl eq_refl).
  - exact (proj1 (H None) eq_refl).
Defined.

(** ** Trigger statistics *)

Lemma create_rule_success (docs docs' : collection) now (r : rule) msg rule_id :
  create_rule docs now r = (docs', (true, msg, Some rule_id)) ->
  docs !! rule_id = None /\ docs' = <[rule_id := with_metadata now r]> docs.
Proof.
  unfold create_rule. destruct (validate_rule r) as [is_valid error].
  destruct is_valid; simpl; [| intros H; inversion H].
  destruct (name_taken docs (name r)); intros H; inversion H; subst.
  split; [| reflexivity].
  apply not_elem_of_dom. apply is_fresh.
Qed.

Lemma update_last_triggered_lookup (docs : collection) now rule_id zones avg_value (r : rule) :
  docs !! rule_id = Some r ->
  update_last_triggered docs now rule_id zones avg_value !! rule_id
  = Some (fired r (now, zones, avg_value)).
Proof.
  intros Hr. unfold update_last_triggered, get_rule. rewrite Hr.
  apply lookup_insert_eq.
Qed.

Lemma update_last_triggered_other (docs : collection) now rule_id zones avg_value other :
  other <> rule_id ->
  update_last_triggered docs now rule_id zones avg_value !! other = docs !! other.
Proof.
  intros Hne. unfold update_last_triggered, get_rule.
  destruct (docs !! rule_id); [| reflexivity].
  apply lookup_insert_ne. congruence.
Qed.

Lemma record_triggers_lookup (firings : list firing) (docs : collection) rule_id (r : rule) :
  docs !! rule_id = Some r ->
  record_triggers docs rule_id firings !! rule_id = Some (fold_left fired firings r).
Proof.
  revert docs r. induction firings as [| [[now zones] avg_value] rest IH]; intros docs r Hr.
  - exact Hr.
  - simpl. apply IH. now apply update_last_triggered_lookup.
Qed.

Lemma fired_counters (r : rule) (f : firing) :
  trigger_count_of (fired r f) = (trigger_count_of r + 1)%Z /\
  total_triggers_of (fired r f) = (total_triggers_of r + 1)%Z.
Proof. destruct f as [[now zones] avg_value]. split; reflexivity. Qed.

Lemma fold_fired_counters (firings : list firing) (r : rule) :
  trigger_count_of (fold_left fired firings r)
  = (trigger_count_of r + Z.of_nat (length firings))%Z /\
  total_triggers_of (fold_left fired firings r)
  = (total_triggers_of r + Z.of_nat (length firings))%Z.
Proof.
  revert r. induction firings as [| f rest IH]; intros r.
  - simpl. split; lia.
  - cbn [fold_left length]. destruct (IH (fired r f)) as [Hc Ht].
    destruct (fired_counters r f) as [Hc1 Ht1].
    rewrite Hc, Ht, Hc1, Ht1. split; lia.
Qed.

(** C3 (as stated, refuted): [create_rule] resets [trigger_count] to 0 but
    keeps a statistics block supplied with the rule; a rule submitted with
    [stats.total_triggers = 5] is stored with counters 0 and 5, and after one
    recorded trigger they are 1 and 6. *)
Lemma created_counters_may_differ :
  let submitted := rule_with_stats (Some imported_stats) in
  let created := with_metadata 0 submitted in
  let after := fired created (60%Q, None, Some 1200%Q) in
  create_rule ∅ 0 submitted
  = (<[0%nat := created]> ∅, (true, "Règle créée avec succès", Some 0%nat)) /\
  trigger_count_of created = 0%Z /\ total_triggers_of created = 5%Z /\
  update_last_triggered (<[0%nat := created]> ∅) 60 0 None (Some 1200%Q) !! 0%nat
  = Some after /\
  trigger_count_of after = 1%Z /\ total_triggers_of after = 6%Z /\
  trigger_count_of after <> total_triggers_of after.
Proof.
  intros submitted created after.
  split; [vm_compute; reflexivity |].
  split; [reflexivity |]. split; [reflexivity |].
  split; [apply update_last_triggered_lookup, lookup_insert_eq |].
  split; [reflexivity |]. split; [reflexivity |].
  discriminate.
Qed.

(** C3 (amended): a rule created through [create_rule] without a statistics
    block, or with one whose [total_triggers] is absent or 0, is stored with
    [trigger_count = stats.total_triggers = 0], and after any sequence of
    [update_last_triggered] calls on it both equal the number of calls;
    on any stored rule [update_last_triggered] adds one to both counters, so
    it preserves their equality. *)
Theorem trigger_count_matches_total (docs docs' : collection) now (r : rule) msg rule_id
    (firings : list firing) :
  create_rule docs now r = (docs', (true, msg, Some rule_id)) ->
  total_triggers_of r = 0%Z ->
  (exists after,
     record_triggers docs' rule_id firings !! rule_id = Some after /\
     trigger_count_of after = Z.of_nat (length firings) /\
     total_triggers_of after = Z.of_nat (length firings)) /\
  (forall (stored : collection) at_time id zones avg_value before,
     stored !! id = Some before ->
     trigger_count_of before = total_triggers_of before ->
     exists after,
       update_last_triggered stored at_time id zones avg_value !! id = Some after /\
       trigger_count_of after = (trigger_count_of before + 1)%Z /\
       trigger_count_of after = total_triggers_of after).
Proof.
  intros Hcreate Hfresh. split.
  - apply create_rule_success in Hcreate as [_ ->].
    exists (fold_left fired firings (with_metadata now r)).
    split; [apply record_triggers_lookup, lookup_insert_eq |].
    destruct (fold_fired_counters firings (with_metadata now r)) as [-> ->].
    assert (Ht : total_triggers_of (with_metadata now r) = 0%Z).
    { unfold total_triggers_of in *. simpl. destruct (stats r); [exact Hfresh | reflexivity]. }
    rewrite Ht. split; reflexivity.
  - intros stored at_time id zones avg_value before Hbefore Hagree.
    exists (fired before (at_time, zones, avg_value)).
    split; [now apply update_last_triggered_lookup |].
    destruct (fired_counters before (at_time, zones, avg_value)) as [Hc Ht].
    rewrite Hc, Ht. split; lia.
Qed.

Lemma trigger_count_matches_total_witness :
  exists after,
    record_triggers (fst (create_rule ∅ 0 (rule_with_stats None))) 0
      [(60%Q, Some ["A"], Some 1200%Q); (400%Q, None, None)] !! 0%nat = Some after /\
    trigger_count_of after = 2%Z /\ total_triggers_of after = 2%Z.
Proof.
  assert (Hcreate : create_rule ∅ 0 (rule_with_stats None)
                    = (fst (create_rule ∅ 0 (rule_with_stats None)),
                       (true, "Règle créée avec succès", Some 0%nat)))
    by (vm_compute; reflexivity).
  exact (proj1 (trigger_count_matches_total _ _ _ _ _ _
                  [(60%Q, Some ["A"], Some 1200%Q); (400%Q, None, None)]
                  Hcreate eq_refl)).
Defined.

(** ** The running average *)

(** The average carried by a rule, weighted by its number of triggers. *)
Lemma inject_Z_succ_nonzero (t : Z) : (0 <= t)%Z -> ~ (inject_Z (t + 1) == 0)%Q.
Proof. intros Ht H. unfold Qeq in H. simpl in H. lia. Qed.

Lemma updated_stats_average (old : rule_stats) zones (v : Q) :
  (0 <= default 0 (total_triggers old))%Z ->
  let n := (default 0 (total_triggers old) + 1)%Z in
  exists a,
    avg_value_on_trigger (updated_stats old zones (Some v)) = Some a /\
    (a == (default 0 (avg_value_on_trigger old) * inject_Z (n - 1) + v) / inject_Z n)%Q.
Proof.
  intros Ht n. unfold updated_stats. fold n. cbn [avg_value_on_trigger].
  destruct (Z.ltb_spec 1 n) as [Hn | Hn].
  - eexists. split; [reflexivity |]. reflexivity.
  - exists v. split; [reflexivity |].
    assert (Hn1 : n = 1%Z) by (unfold n in *; lia). rewrite Hn1.
    change (inject_Z (1 - 1)) with 0%Q. change (inject_Z 1) with 1%Q.
    field.
Qed.

Lemma fired_weighted_average (r : rule) now zones (v : Q) :
  (0 <= total_triggers_of r)%Z ->
  exists st a,
    stats (fired r (now, zones, Some v)) = Some st /\
    avg_value_on_trigger st = Some a /\
    (a * inject_Z (total_triggers_of r + 1) == avg_value_of r * inject_Z (total_triggers_of r) + v)%Q.
Proof.
  intros Ht.
  destruct (updated_stats_average (default no_stats (stats r)) zones v Ht) as (a & Ha & Heq).
  exists (updated_stats (default no_stats (stats r)) zones (Some v)), a.
  split; [reflexivity |]. split; [exact Ha |].
  rewrite Heq. fold (total_triggers_of r). fold (avg_value_of r).
  replace (total_triggers_of r + 1 - 1)%Z with (total_triggers_of r) by lia.
  field. now apply inject_Z_succ_nonzero.
Qed.

Lemma fold_fired_weighted_average (firings : list firing) (values : list Q) (r : rule) :
  map snd firings = map Some values ->
  (0 <= total_triggers_of r)%Z ->
  (avg_value_of (fold_left fired firings r)
   * inject_Z (total_triggers_of r + Z.of_nat (length values))
   == avg_value_of r * inject_Z (total_triggers_of r) + sum_Q values)%Q /\
  (values <> [] ->
   exists st a, stats (fold_left fired firings r) = Some st /\
                avg_value_on_trigger st = Some a).
Proof.
  revert values r. induction firings as [| [[now zones] avg_value] rest IH];
    intros values r Hvalues Ht.
  - destruct values; [| discriminate Hvalues]. simpl. split; [| congruence].
    rewrite Z.add_0_r. ring.
  - destruct values as [| v values]; [discriminate Hvalues |].
    simpl in Hvalues. injection Hvalues as -> Hrest.
    cbn [fold_left length sum_Q fold_right].
    destruct (fired_weighted_average r now zones v Ht) as (st & a & Hst & Ha & Heq).
    destruct (fired_counters r (now, zones, Some v)) as [_ Htot].
    assert (Ht' : (0 <= total_triggers_of (fired r (now, zones, Some v)))%Z) by lia.
    destruct (IH values _ Hrest Ht') as [Hsum Hsome].
    assert (Havg : avg_value_of (fired r (now, zones, Some v)) = a).
    { unfold avg_value_of. rewrite Hst. simpl. now rewrite Ha. }
    split.
    + rewrite Htot, Havg in Hsum.
      replace (total_triggers_of r + Z.of_nat (S (length values)))%Z
        with (total_triggers_of r + 1 + Z.of_nat (length values))%Z by lia.
      rewrite Hsum, Heq. fold (sum_Q values). ring.
    + intros _. destruct values as [| v' values'].
      * destruct rest; [| discriminate Hrest]. simpl. eauto.
      * apply Hsome. discriminate.
Qed.



(** ** Validation *)

Lemma validate_rule_missing_field (r : rule) :
  truthy_str (name r) = true ->
  in_names (rule_type r) RULE_TYPES = true ->
  truthy_str (field (default no_conditions (conditions r))) = false ->
  validate_rule r = (false, "Le champ à surveiller est obligatoire").
Proof.
  intros Hname Htype Hfield. unfold validate_rule.
  rewrite Hname, Htype, Hfield. reflexivity.
Qed.




(** ** Dispatch *)

(** C10: a webhook action whose config has [webhook_url] but no [url] passes
    validation (it never makes [validate_rule] reject a rule), and
    [send_notification] answers [False] for it without any request. *)
Theorem webhook_url_only_passes_but_never_sent http send_alert_email
    (action : rule_action) (config : action_config) :
  action_type action = Some "webhook" ->
  action_config_of action = Some config ->
  truthy_str (url config) = false ->
  truthy_str (webhook_url config) = true ->
  validate_action action = None /\
  (forall (r : rule) (rest : list rule_action),
     validate_rule (with_actions (Some (action :: rest)) r)
     = validate_rule (with_actions (Some rest) r)) /\
  send_notification http send_alert_email action = (false, []).
Proof.
  intros Hty Hcfg Hurl Hhook.
  assert (Hva : validate_action action = None).
  { unfold validate_action. rewrite Hty, Hcfg. simpl. now rewrite Hurl, Hhook. }
  split; [exact Hva |]. split.
  - intros r rest. unfold validate_rule, with_actions. simpl. now rewrite Hva.
  - unfold send_notification. rewrite Hty, Hcfg. simpl.
    unfold _send_webhook. now rewrite Hurl.
Qed.

Lemma webhook_url_only_passes_but_never_sent_witness :
  validate_rule (with_actions (Some [webhook_url_only]) (above_35 None)) = (true, "") /\
  send_notification always_200 mail_delivered webhook_url_only = (false, []).
Proof.
  pose proof (webhook_url_only_passes_but_never_sent always_200 mail_delivered
                webhook_url_only _ eq_refl eq_refl eq_refl eq_refl) as (_ & Hrule & Hsend).
  split; [| exact Hsend].
  rewrite Hrule. reflexivity.
Defined.

(** Every action of the rule is handed to the dispatcher, whatever its
    [enabled] flag. *)
Lemma _trigger_rule_actions_all http send_alert_email (r : rule) :
  map fst (_trigger_rule_actions http send_alert_email r) = default [] (actions r).
Proof.
  unfold _trigger_rule_actions. rewrite map_map. simpl. apply map_id.
Qed.

(** C5 (code at the failing input): when the first example rule fires, its
    disabled webhook action is dispatched and the request is sent; the
    actions dispatched are not the enabled ones. *)
Theorem disabled_action_is_dispatched :
  action_enabled example_webhook = Some false /\
  enabled_actions critical_temperature = [example_email] /\
  _trigger_rule_actions always_200 mail_delivered critical_temperature
  = [ (example_email,
       (true, [Mail ["admin@smartbuilding.com"; "tech@smartbuilding.com"]]));
      (example_webhook,
       (true, [HttpPost "https://hooks.slack.com/services/YOUR/WEBHOOK/URL"])) ] /\
  map fst (_trigger_rule_actions always_200 mail_delivered critical_temperature)
  <> enabled_actions critical_temperature.
Proof.
  split; [reflexivity |]. split; [reflexivity |]. split; [reflexivity |].
  rewrite _trigger_rule_actions_all. discriminate.
Qed.

(** * Further properties of the evaluator *)

Lemma filter_filter_andb {A : Type} (p q : A -> bool) (l : list A) :
  List.filter q (List.filter p l) = List.filter (fun x => p x && q x) l.
Proof.
  induction l as [| x l IH]; simpl; [reflexivity |].
  destruct (p x); simpl; [destruct (q x); simpl; now rewrite IH | exact IH].
Qed.

Lemma filter_all {A : Type} (l : list A) : List.filter (fun _ => true) l = l.
Proof. induction l as [| x l IH]; simpl; [reflexivity | now rewrite IH]. Qed.

Lemma filter_when {A : Type} (active : bool) (p : A -> bool) (l : list A) :
  (if active then List.filter p l else l) = List.filter (fun x => negb active || p x) l.
Proof. destruct active; simpl; [reflexivity | now rewrite filter_all]. Qed.

Lemma _filter_logs_filter (logs : list event) (f : log_filters) :
  _filter_logs logs f = List.filter (passes f) logs.
Proof.
  unfold _filter_logs. cbv zeta. rewrite !filter_when, !filter_filter_andb.
  apply filter_ext. intros log. unfold passes. now rewrite !andb_assoc.
Qed.

Lemma filter_sublist {A : Type} (p : A -> bool) (l : list A) :
  sublist (List.filter p l) l.
Proof.
  induction l as [| x l IH]; simpl; [constructor |].
  destruct (p x); [now apply sublist_skip | now apply sublist_cons].
Qed.

Lemma _filter_logs_sublist (logs : list event) (f : log_filters) :
  sublist (_filter_logs logs f) logs.
Proof. rewrite _filter_logs_filter. apply filter_sublist. Qed.

(** X1: [_filter_logs] keeps exactly the events that pass every filter that
    is set (a non-empty zone, sensor-type or status list, a non-empty
    building), in their original order. *)
Theorem _filter_logs_passes (logs : list event) (f : log_filters) :
  _filter_logs logs f = List.filter (passes f) logs /\
  (forall log, In log (_filter_logs logs f) <-> In log logs /\ passes f log = true).
Proof.
  split; [apply _filter_logs_filter |].
  intros log. rewrite _filter_logs_filter. apply filter_In.
Qed.

(** X2: filtering is idempotent, never adds or reorders events, and with no
    filter set (every list empty or absent, no building) returns the events
    unchanged. *)
Theorem _filter_logs_idempotent_sublist (logs : list event) (f : log_filters) :
  _filter_logs (_filter_logs logs f) f = _filter_logs logs f /\
  sublist (_filter_logs logs f) logs /\
  (nonempty_filter (zone f) = false -> nonempty_filter (sensor_type f) = false ->
   nonempty_filter (status f) = false -> truthy_str (building f) = false ->
   _filter_logs logs f = logs).
Proof.
  split; [| split].
  - rewrite !_filter_logs_filter, filter_filter_andb.
    apply filter_ext. intros log. now destruct (passes f log).
  - apply _filter_logs_sublist.
  - intros Hz Hs Ht Hb. unfold _filter_logs. now rewrite Hz, Hs, Ht, Hb.
Qed.

Lemma _filter_logs_idempotent_sublist_witness :
  _filter_logs five_hot_events
    {| zone := Some []; sensor_type := None; status := Some []; building := Some "" |}
  = five_hot_events.
Proof.
  apply (_filter_logs_idempotent_sublist five_hot_events); reflexivity.
Defined.

(** ** Range rules *)

Lemma out_of_range_numeric (v : value) (q low high : Q) :
  num_of v = Some q ->
  out_of_range v (VNum low) (VNum high) = Ok (Qlt_bool q low || Qlt_bool high q).
Proof.
  intros Hq. unfold out_of_range.
  assert (Hlt : forall op bound, py_order op v (VNum bound) = Ok (ord_Q op q bound)).
  { intros op bound. destruct v; simpl in Hq; try discriminate Hq;
      injection Hq as <-; reflexivity. }
  rewrite !Hlt. simpl. destruct (Qlt_bool q low); reflexivity.
Qed.

Lemma range_loop_numeric (field : string) (low high : Q) (logs : list event) :
  forallb (numeric_or_missing field) logs = true ->
  range_loop field (VNum low) (VNum high) logs
  = Ok (List.filter (outside field low high) logs).
Proof.
  induction logs as [| log rest IH]; simpl; [reflexivity |].
  intros Hall. apply andb_prop in Hall as [Hlog Hrest].
  rewrite (IH Hrest). unfold numeric_or_missing in Hlog.
  destruct (is_None (get log field)) eqn:Hnone.
  - assert (Hout : outside field low high log = false).
    { unfold outside. destruct (get log field); try discriminate Hnone. reflexivity. }
    now rewrite Hout.
  - simpl in Hlog. destruct (num_of (get log field)) as [q |] eqn:Hq; [| discriminate].
    assert (Hout : outside field low high log = Qlt_bool q low || Qlt_bool high q).
    { unfold outside. now rewrite Hq. }
    rewrite (out_of_range_numeric _ q _ _ Hq), Hout. simpl.
    destruct (Qlt_bool q low || Qlt_bool high q); reflexivity.
Qed.

Lemma Qlt_bool_iff (x y : Q) : Qlt_bool x y = true <-> (x < y)%Q.
Proof.
  unfold Qlt_bool. rewrite negb_true_iff. split.
  - intros H. apply Qnot_le_lt. intros Hle. apply Qle_bool_iff in Hle. congruence.
  - intros H. destruct (Qle_bool y x) eqn:E; [| reflexivity].
    apply Qle_bool_iff in E. exfalso. exact (Qlt_not_le _ _ H E).
Qed.

(** X3: for an enabled range rule with numeric bounds (0 and 100 when
    absent), over filtered events whose field is a number, [None] or
    missing, [evaluate_rule] matches exactly the filtered events whose value
    is strictly below [min_value] or strictly above [max_value], in order,
    and triggers iff there is one; a value equal to a bound is in range. *)
Theorem range_evaluate fromisoformat now (r : rule) (logs : list event) (low high : Q) :
  is_range_rule r ->
  default (VNum 0) (min_value (default no_conditions (conditions r))) = VNum low ->
  default (VNum 100) (max_value (default no_conditions (conditions r))) = VNum high ->
  forallb (numeric_or_missing (threshold_field r)) (filtered_logs r logs) = true ->
  evaluate_rule fromisoformat now r logs
  = (existsb (outside (threshold_field r) low high) (filtered_logs r logs),
     List.filter (outside (threshold_field r) low high) (filtered_logs r logs)) /\
  (forall log, In log (snd (evaluate_rule fromisoformat now r logs)) ->
     exists q, num_of (get log (threshold_field r)) = Some q /\ (q < low \/ high < q)%Q).
Proof.
  intros [Hen Hty] Hlow Hhigh Hnum.
  assert (Heval : evaluate_rule fromisoformat now r logs
                  = (existsb (outside (threshold_field r) low high) (filtered_logs r logs),
                     List.filter (outside (threshold_field r) low high) (filtered_logs r logs))).
  { unfold evaluate_rule. rewrite Hen, Hty. simpl.
    unfold _evaluate_range. rewrite Hlow, Hhigh.
    fold (threshold_field r) (filtered_logs r logs).
    rewrite (range_loop_numeric _ _ _ _ Hnum). simpl.
    now rewrite nonempty_filter_existsb. }
  split; [exact Heval |].
  intros log Hin. rewrite Heval in Hin. simpl in Hin.
  apply filter_In in Hin as [_ Hout]. unfold outside in Hout.
  destruct (num_of (get log (threshold_field r))) as [q |]; [| discriminate].
  exists q. split; [reflexivity |].
  apply orb_prop in Hout as [H | H]; apply Qlt_bool_iff in H; tauto.
Qed.

(** Scenario 3 of the specification, through the theorem: of the readings
    300, 500, 800, 1200, 1500 against [400, 1000], the first and the last
    two match. *)
Lemma range_evaluate_witness :
  evaluate_rule no_parse 0 co2_range co2_readings
  = (true, [reading 300; reading 1200; reading 1500]).
Proof.
  rewrite (proj1 (range_evaluate no_parse 0 co2_range co2_readings 400 1000
                    (conj eq_refl eq_refl) eq_refl eq_refl eq_refl)).
  vm_compute. reflexivity.
Defined.

(** ** Matched events *)

Lemma threshold_loop_sublist field operator threshold (logs matched : list event) :
  threshold_loop field operator threshold logs = Ok matched -> sublist matched logs.
Proof.
  rewrite threshold_loop_spec. destruct (forallb _ logs); [| discriminate].
  intros H. injection H as <-. apply filter_sublist.
Qed.

Lemma range_loop_sublist field low high (logs matched : list event) :
  range_loop field low high logs = Ok matched -> sublist matched logs.
Proof.
  revert matched. induction logs as [| log rest IH]; simpl; intros matched H.
  - injection H as <-. constructor.
  - destruct (is_None (get log field)); [apply sublist_cons; now apply IH |].
    destruct (out_of_range (get log field) low high) as [out | e]; [| discriminate].
    simpl in H. destruct (range_loop field low high rest) as [kept | e]; [| discriminate].
    simpl in H. injection H as <-.
    destruct out; [apply sublist_skip | apply sublist_cons]; now apply IH.
Qed.

Lemma filter_r_sublist {A : Type} (p : A -> result bool) (l kept : list A) :
  filter_r p l = Ok kept -> sublist kept l.
Proof.
  revert kept. induction l as [| x rest IH]; simpl; intros kept H.
  - injection H as <-. constructor.
  - destruct (p x) as [keep | e]; [| discriminate]. simpl in H.
    destruct (filter_r p rest) as [kept' | e]; [| discriminate]. simpl in H.
    injection H as <-.
    destruct keep; [apply sublist_skip | apply sublist_cons]; now apply IH.
Qed.

Lemma slice_to_sublist {A : Type} (l : list A) (k : Z) : sublist (slice_to l k) l.
Proof. unfold slice_to. destruct (0 <=? k)%Z; apply sublist_take. Qed.

Lemma evaluator_sublist fromisoformat now (r : rule) (logs : list event) answer :
  _evaluate_threshold r logs = Ok answer \/ _evaluate_range r logs = Ok answer \/
  _evaluate_pattern fromisoformat now r logs = Ok answer \/
  _evaluate_trend r logs = Ok answer ->
  sublist (snd answer) logs.
Proof.
  pose proof (_filter_logs_sublist logs
    (default no_filters (filters (default no_conditions (conditions r))))) as Hf.
  intros [H | [H | [H | H]]].
  - unfold _evaluate_threshold in H.
    destruct (threshold_loop _ _ _ _) as [m |] eqn:E; [| discriminate].
    simpl in H. injection H as <-. simpl.
    etransitivity; [eapply threshold_loop_sublist, E | exact Hf].
  - unfold _evaluate_range in H.
    destruct (range_loop _ _ _ _) as [m |] eqn:E; [| discriminate].
    simpl in H. injection H as <-. simpl.
    etransitivity; [eapply range_loop_sublist, E | exact Hf].
  - unfold _evaluate_pattern in H.
    destruct (_ <=? _)%Z; [| injection H as <-; apply sublist_nil_l].
    destruct (filter_r _ _) as [m |] eqn:E; [| discriminate]. simpl in H.
    destruct (_ <=? _)%Z; injection H as <-; [| apply sublist_nil_l]. simpl.
    etransitivity; [apply slice_to_sublist |].
    etransitivity; [eapply filter_r_sublist, E | exact Hf].
  - injection H as <-. apply sublist_nil_l.
Qed.

Lemma evaluate_rule_sublist fromisoformat now (r : rule) (logs : list event) :
  sublist (snd (evaluate_rule fromisoformat now r logs)) logs.
Proof.
  unfold evaluate_rule.
  destruct (negb (default false (enabled r))); [apply sublist_nil_l |].
  set (outcome := if String.eqb _ "threshold" then _ else _).
  destruct outcome as [answer | e] eqn:E; [| apply sublist_nil_l].
  subst outcome.
  destruct (String.eqb _ "threshold");
    [apply (evaluator_sublist fromisoformat now r logs answer); left; exact E |].
  destruct (String.eqb _ "range");
    [apply (evaluator_sublist fromisoformat now r logs answer); right; left; exact E |].
  destruct (String.eqb _ "pattern");
    [apply (evaluator_sublist fromisoformat now r logs answer); right; right; left;
     exact E |].
  destruct (String.eqb _ "trend");
    [apply (evaluator_sublist fromisoformat now r logs answer); right; right; right;
     exact E |].
  injection E as <-. apply sublist_nil_l.
Qed.

(** X4: whatever the rule and the events, the events [evaluate_rule]
    reports as matched are events of the input, in their input order and
    without repetition of an occurrence: a sub-list of the input. *)
Theorem evaluate_rule_matched_sublist fromisoformat now (r : rule) (logs : list event) :
  sublist (snd (evaluate_rule fromisoformat now r logs)) logs /\
  length (snd (evaluate_rule fromisoformat now r logs)) <= length logs.
Proof.
  split; [apply evaluate_rule_sublist |].
  apply sublist_length, evaluate_rule_sublist.
Qed.

(** X5: [evaluate_rule] reports a trigger without any matched event only
    for a pattern rule whose [event_count] is zero or negative; for every
    other rule a trigger comes with at least one matched event. *)
Theorem triggered_without_match fromisoformat now (r : rule) (logs : list event) :
  fst (evaluate_rule fromisoformat now r logs) = true ->
  snd (evaluate_rule fromisoformat now r logs) = [] ->
  rule_type r = Some "pattern" /\ (pattern_count r <= 0)%Z.
Proof.
  unfold evaluate_rule.
  destruct (negb (default false (enabled r))); [discriminate |].
  destruct (String.eqb_spec (default "threshold" (rule_type r)) "threshold") as [_ | _].
  { unfold _evaluate_threshold. destruct (threshold_loop _ _ _ _) as [m | e]; simpl;
      [| discriminate]. intros H ->. discriminate H. }
  destruct (String.eqb_spec (default "threshold" (rule_type r)) "range") as [_ | _].
  { unfold _evaluate_range. destruct (range_loop _ _ _ _) as [m | e]; simpl;
      [| discriminate]. intros H ->. discriminate H. }
  destruct (String.eqb_spec (default "threshold" (rule_type r)) "pattern") as [Hty | _].
  { assert (Hpat : rule_type r = Some "pattern").
    { destruct (rule_type r); simpl in Hty; [now subst | discriminate]. }
    unfold _evaluate_pattern. fold (pattern_count r).
    destruct (_ <=? _)%Z; [| discriminate].
    destruct (filter_r _ _) as [recent | e]; simpl; [| discriminate].
    destruct (Z.leb_spec (pattern_count r) (Z.of_nat (length recent))) as [Hk | Hk];
      simpl; [| discriminate].
    intros _ Hempty. split; [exact Hpat |].
    unfold slice_to in Hempty.
    destruct (Z.leb_spec 0 (pattern_count r)) as [Hpos | Hneg]; [| lia].
    apply (f_equal (@length event)) in Hempty. rewrite length_firstn in Hempty.
    simpl in Hempty. lia. }
  destruct (String.eqb (default "threshold" (rule_type r)) "trend"); discriminate.
Qed.

Lemma triggered_without_match_witness :
  evaluate_rule no_parse 0 zero_count_pattern [] = (true, []) /\
  rule_type zero_count_pattern = Some "pattern" /\ (pattern_count zero_count_pattern <= 0)%Z.
Proof.
  split; [reflexivity |].
  apply (triggered_without_match no_parse 0 zero_count_pattern []); reflexivity.
Defined.

(** ** Timestamps *)

Lemma before_dot_remove_Z_plain (s rest : string) :
  plain s = true ->
  before_dot (remove_Z s) = s /\
  before_dot (remove_Z (s +:+ "Z")) = s /\
  before_dot (remove_Z (s +:+ "." +:+ rest)) = s.
Proof.
  induction s as [| c s IH]; simpl; intros Hplain.
  - repeat split; reflexivity.
  - apply andb_prop in Hplain as [Hc Hs]. apply andb_prop in Hc as [HZ Hdot].
    apply negb_true_iff in HZ, Hdot. destruct (IH Hs) as (H1 & H2 & H3).
    rewrite HZ. simpl. rewrite Hdot, H1, H2, H3. repeat split; reflexivity.
Qed.

(** X6: [_parse_timestamp] tolerates a trailing ['Z'] and fractional
    seconds: for a text [s] without ['Z'] and ['.'], [s + 'Z'] and
    [s + '.' + anything] (so also a UTC offset written after the fraction)
    are read exactly as [s] is. *)
Theorem _parse_timestamp_ignores_suffix fromisoformat now (s rest : string) :
  plain s = true ->
  _parse_timestamp fromisoformat now (VStr (s +:+ "Z"))
  = _parse_timestamp fromisoformat now (VStr s) /\
  _parse_timestamp fromisoformat now (VStr (s +:+ "." +:+ rest))
  = _parse_timestamp fromisoformat now (VStr s).
Proof.
  intros Hplain. destruct (before_dot_remove_Z_plain s rest Hplain) as (H1 & H2 & H3).
  unfold _parse_timestamp. rewrite H1, H2, H3. split; reflexivity.
Qed.

Lemma _parse_timestamp_ignores_suffix_witness :
  _parse_timestamp plain_isoformat 0 (VStr "2024-01-15T10:29:50.120Z")
  = Naive (inject_Z 1705314590).
Proof.
  pose proof (proj2 (_parse_timestamp_ignores_suffix plain_isoformat 0
                       "2024-01-15T10:29:50" "120Z" eq_refl)) as H.
  change ("2024-01-15T10:29:50" +:+ "." +:+ "120Z") with "2024-01-15T10:29:50.120Z" in H.
  rewrite H. vm_compute. reflexivity.
Defined.



(** * Further properties of validation and dispatch *)

Lemma validate_action_ok (action : rule_action) :
  (validate_action action = None <-> action_ok action = true) /\
  validate_action action <> Some "".
Proof.
  unfold validate_action, action_ok.
  destruct (in_names (action_type action) ACTION_TYPES) eqn:Hin; simpl;
    [| split; [split; discriminate | discriminate]].
  destruct (is_str (action_type action) "email") eqn:Hemail; simpl.
  - assert (Hweb : in_names (action_type action) ["webhook"; "slack"; "discord"] = false).
    { destruct (action_type action) as [t |]; [| discriminate].
      simpl in Hemail. apply String.eqb_eq in Hemail. now subst. }
    rewrite Hweb. simpl.
    destruct (truthy_list _); simpl; split; try discriminate; split; congruence.
  - destruct (in_names (action_type action) ["webhook"; "slack"; "discord"]); simpl;
      [| split; [tauto | discriminate]].
    destruct (truthy_str (url _)); simpl; [split; [tauto | discriminate] |].
    destruct (truthy_str (webhook_url _)); simpl; split; try discriminate;
      split; congruence.
Qed.

Lemma validate_actions_ok (l : list rule_action) :
  (validate_actions l = None <-> forallb action_ok l = true) /\
  validate_actions l <> Some "".
Proof.
  induction l as [| action rest [IH1 IH2]]; simpl;
    [split; [tauto | discriminate] |].
  destruct (validate_action_ok action) as [Ha1 Ha2].
  destruct (validate_action action) as [message |] eqn:Hva.
  - assert (Hno : action_ok action = false).
    { destruct (action_ok action) eqn:Hok; [| reflexivity].
      pose proof (proj2 Ha1 eq_refl) as Hbad. discriminate Hbad. }
    rewrite Hno. simpl. split; [split; discriminate | exact Ha2].
  - rewrite (proj1 Ha1 eq_refl). simpl. split; [exact IH1 | exact IH2].
Qed.

(** X8: [validate_rule] accepts exactly the well-formed rules: non-empty
    name, known rule type, non-empty [conditions.field], the conditions its
    type needs (threshold: known operator and a threshold that is present,
    0 included; range: both bounds; trend and pattern: a non-zero
    [time_window]), valid actions, and a severity that is absent, empty or
    known. It answers [(True, "")] on them and [False] with a non-empty
    message on every other rule. *)
Theorem validate_rule_well_formed (r : rule) :
  fst (validate_rule r) = well_formed r /\
  (well_formed r = true -> validate_rule r = (true, "")) /\
  (well_formed r = false -> snd (validate_rule r) <> "").
Proof.
  assert (H : (well_formed r = true /\ validate_rule r = (true, "")) \/
              (well_formed r = false /\ fst (validate_rule r) = false /\
               snd (validate_rule r) <> "")).
  { unfold validate_rule, well_formed, conditions_ok.
    destruct (truthy_str (name r)); simpl;
      [| right; repeat split; discriminate].
    destruct (in_names (rule_type r) RULE_TYPES) eqn:Hty; simpl;
      [| right; repeat split; discriminate].
    destruct (truthy_str (field _)); simpl;
      [| right; repeat split; discriminate].
    destruct (validate_actions_ok (default [] (actions r))) as [Hact Hmsg].
    assert (Hsev : forall (b : bool),
      (b = true /\ (if b then @None string else Some "x") = None) \/ b = false)
      by (intros []; [left; split; reflexivity | right; reflexivity]).
    assert (Hrest :
      (forallb action_ok (default [] (actions r))
       && (negb (truthy_str (severity r)) || in_names (severity r) SEVERITIES) = true /\
       match validate_actions (default [] (actions r)) with
       | Some message => (false, message)
       | None => if truthy_str (severity r) && negb (in_names (severity r) SEVERITIES)
                 then (false, "Sévérité invalide. Doit être: low, medium, high, critical")
                 else (true, "")
       end = (true, "")) \/
      (forallb action_ok (default [] (actions r))
       && (negb (truthy_str (severity r)) || in_names (severity r) SEVERITIES) = false /\
       fst (match validate_actions (default [] (actions r)) with
            | Some message => (false, message)
            | None => if truthy_str (severity r) && negb (in_names (severity r) SEVERITIES)
                      then (false, "Sévérité invalide. Doit être: low, medium, high, critical")
                      else (true, "")
            end) = false /\
       snd (match validate_actions (default [] (actions r)) with
            | Some message => (false, message)
            | None => if truthy_str (severity r) && negb (in_names (severity r) SEVERITIES)
                      then (false, "Sévérité invalide. Doit être: low, medium, high, critical")
                      else (true, "")
            end) <> "")).
    { destruct (validate_actions (default [] (actions r))) as [message |].
      - right. assert (Hf : forallb action_ok (default [] (actions r)) = false).
        { destruct (forallb action_ok (default [] (actions r))) eqn:Hall; [| reflexivity].
          pose proof (proj2 Hact eq_refl) as Hbad. discriminate Hbad. }
        rewrite Hf. simpl. repeat split. congruence.
      - rewrite (proj1 Hact eq_refl). simpl.
        destruct (truthy_str (severity r)), (in_names (severity r) SEVERITIES); simpl;
          [left | right | left | left]; repeat split; discriminate. }
    destruct (is_str (rule_type r) "threshold") eqn:Hthr; simpl.
    { destruct (truthy_str (operator _)) eqn:Hop; simpl.
      - destruct (in_names (operator _) OPERATORS); simpl;
          [| right; repeat split; discriminate].
        destruct (value_is_None (threshold _)); simpl;
          [right; repeat split; discriminate |].
        destruct Hrest as [[-> ->] | (-> & H1 & H2)]; [left | right]; tauto.
      - assert (Hno : in_names (operator (default no_conditions (conditions r)))
                        OPERATORS = false).
        { destruct (operator _) as [[| c s] |]; try reflexivity. discriminate Hop. }
        rewrite Hno. simpl. right. repeat split; discriminate. }
    destruct (is_str (rule_type r) "range") eqn:Hrng; simpl.
    { destruct (value_is_None (min_value _)); simpl;
        [right; repeat split; discriminate |].
      destruct (value_is_None (max_value _)); simpl;
        [right; repeat split; discriminate |].
      destruct Hrest as [[-> ->] | (-> & H1 & H2)]; [left | right]; tauto. }
    assert (Htp : in_names (rule_type r) ["trend"; "pattern"] = true).
    { destruct (rule_type r) as [t |]; [| discriminate]. simpl in *.
      destruct (String.eqb t "threshold"); [discriminate |].
      destruct (String.eqb t "range"); [discriminate |]. exact Hty. }
    rewrite Htp.
    destruct (truthy_num (time_window _)); simpl;
      [| right; repeat split; discriminate].
    destruct Hrest as [[-> ->] | (-> & H1 & H2)]; [left | right]; tauto. }
  destruct H as [[Hw Hv] | (Hw & Hf & Hm)]; rewrite Hw.
  - rewrite Hv. split; [reflexivity | split; [reflexivity | discriminate]].
  - split; [exact Hf |]. split; [discriminate | intros _; exact Hm].
Qed.

(** X9: an SMS action passes validation whatever its config, but the
    dispatcher has no handler for it: [send_notification] answers [False]
    and nothing is sent. *)
Theorem sms_action_accepted_but_never_sent http send_alert_email (action : rule_action) :
  action_type action = Some "sms" ->
  validate_action action = None /\
  send_notification http send_alert_email action = (false, []).
Proof.
  intros Hty. unfold validate_action, send_notification. rewrite Hty. split; reflexivity.
Qed.

Lemma sms_action_accepted_but_never_sent_witness :
  validate_rule (with_actions (Some [sms_action]) (above_35 None)) = (true, "") /\
  send_notification always_200 mail_delivered sms_action = (false, []).
Proof.
  split; [reflexivity |].
  apply (sms_action_accepted_but_never_sent always_200 mail_delivered sms_action eq_refl).
Defined.

(** X10: a Slack or Discord action whose config has [url] but no
    [webhook_url] passes validation, yet its handler reads only
    [webhook_url]: [send_notification] answers [False] and nothing is
    sent. *)
Theorem chat_url_only_accepted_but_never_sent http send_alert_email
    (action : rule_action) (config : action_config) :
  action_type action = Some "slack" \/ action_type action = Some "discord" ->
  action_config_of action = Some config ->
  truthy_str (url config) = true ->
  truthy_str (webhook_url config) = false ->
  validate_action action = None /\
  send_notification http send_alert_email action = (false, []).
Proof.
  intros Hty Hcfg Hurl Hhook.
  unfold validate_action, send_notification.
  destruct Hty as [Hty | Hty]; rewrite Hty, Hcfg; simpl;
    unfold _send_slack, _send_discord; rewrite Hurl, Hhook; split; reflexivity.
Qed.

Lemma chat_url_only_accepted_but_never_sent_witness :
  validate_action slack_url_only = None /\
  send_notification always_200 mail_delivered slack_url_only = (false, []).
Proof.
  apply (chat_url_only_accepted_but_never_sent always_200 mail_delivered slack_url_only _
           (or_introl eq_refl) eq_refl eq_refl eq_refl).
Defined.

(** X11: one call of [send_notification] makes at most one outbound request
    (HTTP request or mail), and it answers [True] only when it made
    one. *)
Theorem send_notification_at_most_one http send_alert_email (action : rule_action) :
  length (snd (send_notification http send_alert_email action)) <= 1 /\
  (fst (send_notification http send_alert_email action) = true ->
   length (snd (send_notification http send_alert_email action)) = 1).
Proof.
  unfold send_notification, handlers.
  set (config := default no_config (action_config_of action)).
  destruct (String.eqb _ "email").
  { unfold _send_email. destruct (default [] (recipients config)); simpl;
      split; try lia; discriminate. }
  destruct (String.eqb _ "webhook").
  { unfold _send_webhook. destruct (negb (truthy_str (url config))); simpl;
      [split; [lia | discriminate] |].
    destruct (http _); simpl; split; lia || reflexivity. }
  destruct (String.eqb _ "slack").
  { unfold _send_slack. destruct (negb (truthy_str (webhook_url config))); simpl;
      [split; [lia | discriminate] |].
    destruct (http _); simpl; split; lia || reflexivity. }
  destruct (String.eqb _ "discord").
  { unfold _send_discord. destruct (negb (truthy_str (webhook_url config))); simpl;
      [split; [lia | discriminate] |].
    destruct (http _); simpl; split; lia || reflexivity. }
  simpl. split; [lia | discriminate].
Qed.



(** * Further properties of the rule collection *)

Lemma name_taken_spec (docs : collection) (n : option string) :
  name_taken docs n = true <-> exists i doc, docs !! i = Some doc /\ name doc = n.
Proof.
  unfold name_taken. rewrite bool_decide_eq_true. unfold map_Exists. reflexivity.
Qed.

Lemma create_rule_failure (docs docs' : collection) now (r : rule) msg rule_id :
  create_rule docs now r = (docs', (false, msg, rule_id)) -> docs' = docs.
Proof.
  unfold create_rule. destruct (validate_rule r) as [is_valid error].
  destruct is_valid; simpl; [| intros H; now inversion H].
  destruct (name_taken docs (name r)); intros H; now inversion H.
Qed.

Lemma create_rule_checks (docs docs' : collection) now (r : rule) msg rule_id :
  create_rule docs now r = (docs', (true, msg, Some rule_id)) ->
  fst (validate_rule r) = true /\ name_taken docs (name r) = false.
Proof.
  unfold create_rule. destruct (validate_rule r) as [is_valid error].
  destruct is_valid; simpl; [| intros H; inversion H].
  destruct (name_taken docs (name r)); intros H; inversion H. split; reflexivity.
Qed.

(** X13: [create_rule] never changes the collection when it fails, and it
    keeps rule names unique: from a collection without two rules of the
    same name it never produces one with two. *)
Theorem create_rule_keeps_names_unique (docs docs' : collection) now (r : rule) answer :
  create_rule docs now r = (docs', answer) ->
  (fst (fst answer) = false -> docs' = docs) /\
  (unique_names docs -> unique_names docs').
Proof.
  intros Hcreate. destruct answer as [[ok msg] rule_id]. destruct ok.
  - split; [discriminate |]. intros Huniq.
    assert (Hid : exists id, rule_id = Some id).
    { unfold create_rule in Hcreate. destruct (validate_rule r) as [[] ?]; simpl in *;
        [| inversion Hcreate].
      destruct (name_taken docs (name r)); inversion Hcreate. eauto. }
    destruct Hid as [id ->].
    destruct (create_rule_checks _ _ _ _ _ _ Hcreate) as [_ Hfree].
    apply create_rule_success in Hcreate as [Hnew ->].
    assert (Hno : forall i doc, docs !! i = Some doc -> name doc <> name r).
    { intros i doc Hdoc Hname.
      assert (Htaken : name_taken docs (name r) = true)
        by (apply name_taken_spec; eauto).
      congruence. }
    intros i j a b Ha Hb Hab.
    destruct (decide (i = id)) as [-> | Hi], (decide (j = id)) as [-> | Hj];
      [reflexivity | | |].
    + rewrite lookup_insert_eq in Ha. rewrite lookup_insert_ne in Hb by congruence.
      injection Ha as <-. exfalso. apply (Hno j b Hb). simpl in Hab. congruence.
    + rewrite lookup_insert_eq in Hb. rewrite lookup_insert_ne in Ha by congruence.
      injection Hb as <-. exfalso. apply (Hno i a Ha). simpl in Hab. congruence.
    + rewrite lookup_insert_ne in Ha, Hb by congruence. eapply Huniq; eauto.
  - apply create_rule_failure in Hcreate as ->. split; [reflexivity | tauto].
Qed.

Lemma create_rule_keeps_names_unique_witness :
  unique_names (fst (create_rule (fst (create_rule ∅ 0 (rule_with_stats None))) 5
                       (above_35 None))).
Proof.
  eapply (create_rule_keeps_names_unique _ _ 5 (above_35 None));
    [apply surjective_pairing |].
  eapply (create_rule_keeps_names_unique ∅ _ 0 (rule_with_stats None));
    [apply surjective_pairing |].
  intros i j r s Hr. rewrite lookup_empty in Hr. discriminate Hr.
Defined.

(** X14: once a rule is created, every later [create_rule] with the same
    name is refused and leaves the collection as it is; when the submitted
    rule is valid the refusal is the duplicate-name message. *)
Theorem create_rule_refuses_duplicate (docs docs' : collection) now (r : rule) msg rule_id
    later (r' : rule) :
  create_rule docs now r = (docs', (true, msg, Some rule_id)) ->
  name r' = name r ->
  fst (create_rule docs' later r') = docs' /\
  fst (fst (snd (create_rule docs' later r'))) = false /\
  snd (snd (create_rule docs' later r')) = None /\
  (fst (validate_rule r') = true ->
   snd (fst (snd (create_rule docs' later r')))
   = "Une règle avec le nom '" +:+ show (name r') +:+ "' existe déjà").
Proof.
  intros Hcreate Hname. apply create_rule_success in Hcreate as [_ ->].
  assert (Htaken : name_taken (<[rule_id := with_metadata now r]> docs) (name r') = true).
  { apply name_taken_spec. exists rule_id, (with_metadata now r).
    split; [apply lookup_insert_eq | simpl; congruence]. }
  unfold create_rule. destruct (validate_rule r') as [is_valid error].
  destruct is_valid; simpl; [| repeat split; discriminate].
  rewrite Htaken. repeat split.
Qed.

Lemma create_rule_refuses_duplicate_witness :
  fst (fst (snd (create_rule (fst (create_rule ∅ 0 (rule_with_stats None))) 9
                   (rule_with_stats (Some imported_stats))))) = false.
Proof.
  assert (Hcreate : create_rule ∅ 0 (rule_with_stats None)
                    = (fst (create_rule ∅ 0 (rule_with_stats None)),
                       (true, "Règle créée avec succès", Some 0%nat)))
    by (vm_compute; reflexivity).
  apply (create_rule_refuses_duplicate _ _ _ _ _ _ 9 (rule_with_stats (Some imported_stats))
           Hcreate eq_refl).
Defined.

(** X15: a rule that [create_rule] accepts is valid and bears a name no
    stored rule had; it is stored under an identifier not in use, with no
    [last_triggered] and [trigger_count = 0], so [check_cooldown] finds it
    ready at any time; the rules already stored are untouched. *)
Theorem create_rule_stores_fresh (docs docs' : collection) now (r : rule) msg rule_id :
  create_rule docs now r = (docs', (true, msg, Some rule_id)) ->
  fst (validate_rule r) = true /\
  (forall i doc, docs !! i = Some doc -> name doc <> name r) /\
  get_rule docs rule_id = None /\
  (exists stored, get_rule docs' rule_id = Some stored /\
     name stored = name r /\ conditions stored = conditions r /\
     actions stored = actions r /\ enabled stored = enabled r /\
     last_triggered stored = None /\ trigger_count stored = Some 0%Z) /\
  (forall at_time, check_cooldown docs' at_time rule_id = true) /\
  (forall other, other <> rule_id -> get_rule docs' other = get_rule docs other).
Proof.
  intros Hcreate. destruct (create_rule_checks _ _ _ _ _ _ Hcreate) as [Hvalid Hfree].
  apply create_rule_success in Hcreate as [Hnew ->].
  split; [exact Hvalid |]. split.
  { intros i doc Hdoc Hname.
    assert (Htaken : name_taken docs (name r) = true) by (apply name_taken_spec; eauto).
    congruence. }
  split; [exact Hnew |]. unfold get_rule, check_cooldown, get_rule. split.
  { exists (with_metadata now r). rewrite lookup_insert_eq. repeat split. }
  split.
  - intros at_time. now rewrite lookup_insert_eq.
  - intros other Hne. apply lookup_insert_ne. congruence.
Qed.

Lemma create_rule_stores_fresh_witness :
  check_cooldown (fst (create_rule ∅ 0 (rule_with_stats None))) 86400 0 = true.
Proof.
  assert (Hcreate : create_rule ∅ 0 (rule_with_stats None)
                    = (fst (create_rule ∅ 0 (rule_with_stats None)),
                       (true, "Règle créée avec succès", Some 0%nat)))
    by (vm_compute; reflexivity).
  exact (proj1 (proj2 (proj2 (proj2 (proj2
           (create_rule_stores_fresh _ _ _ _ _ _ Hcreate))))) 86400%Q).
Defined.



(** X17: on a stored rule with a name, [toggle_rule] succeeds, returns the
    new state [not rule.get('enabled', False)] and stores it, touching
    nothing but [enabled] and [updated_at] of that rule; toggling again
    gives back the previous state; and a rule toggled off is evaluated to
    [(False, [])] on every list of events. *)
Theorem toggle_rule_flips fromisoformat (docs : collection) now later rule_id (r : rule) :
  get_rule docs rule_id = Some r ->
  name r <> None ->
  let new_state := negb (default false (enabled r)) in
  let docs' := fst (toggle_rule docs now rule_id) in
  fst (fst (snd (toggle_rule docs now rule_id))) = true /\
  snd (snd (toggle_rule docs now rule_id)) = new_state /\
  get_rule docs' rule_id = Some (toggled now new_state r) /\
  (forall other, other <> rule_id -> get_rule docs' other = get_rule docs other) /\
  snd (snd (toggle_rule docs' later rule_id)) = default false (enabled r) /\
  (new_state = false ->
   forall at_time logs,
     evaluate_rule fromisoformat at_time (toggled now new_state r) logs = (false, [])).
Proof.
  intros Hr Hname new_state docs'.
  assert (Htoggle : toggle_rule docs now rule_id
                    = (<[rule_id := toggled now new_state r]> docs,
                       (true, "Règle " +:+ (if new_state then "activée" else "désactivée"),
                        new_state))).
  { unfold toggle_rule. rewrite Hr. fold new_state.
    destruct (name r); [reflexivity | congruence]. }
  subst docs'. rewrite Htoggle. simpl.
  split; [reflexivity |]. split; [reflexivity |]. unfold get_rule.
  split; [apply lookup_insert_eq |]. split.
  { intros other Hne. apply lookup_insert_ne. congruence. }
  split.
  - unfold toggle_rule, get_rule. rewrite lookup_insert_eq. simpl.
    destruct (name r); [| congruence]. simpl. apply negb_involutive.
  - intros Hoff at_time logs. unfold evaluate_rule. simpl. now rewrite Hoff.
Qed.

Lemma toggle_rule_flips_witness :
  snd (toggle_rule {[ 7 := stored_rule None None ]} 10 7) = (true, "Règle désactivée", false).
Proof.
  pose proof (toggle_rule_flips no_parse {[ 7 := stored_rule None None ]} 10 20 7
                (stored_rule None None) (lookup_singleton_eq _ _) ltac:(discriminate))
    as (Hok & Hstate & _).
  destruct (toggle_rule {[ 7 := stored_rule None None ]} 10 7) as [docs' [[ok msg] state]]
    eqn:Htoggle.
  simpl in Hok, Hstate. subst.
  vm_compute in Htoggle. injection Htoggle as _ <-. reflexivity.
Defined.

(** ** Listing the rules *)

#[local] Instance priority_le_total : Total priority_le.
Proof.
  intros x y. unfold priority_le, priority_leb.
  destruct (priority (snd x)), (priority (snd y)); try (left; reflexivity);
    try (right; reflexivity).
  destruct (Z.leb_spec z z0); [now left |]. right. apply Z.leb_le. lia.
Qed.

#[local] Instance priority_le_trans : Transitive priority_le.
Proof.
  intros x y z. unfold priority_le, priority_leb.
  destruct (priority (snd x)), (priority (snd y)), (priority (snd z));
    try reflexivity; try discriminate.
  rewrite !Z.leb_le. lia.
Qed.

(** X18: [get_all_rules] lists every stored rule once, with its
    identifier ([enabled_only]: every stored rule whose [enabled] is true,
    and no other), sorted by ascending priority, rules without a priority
    first. *)
Theorem get_all_rules_sorted (docs : collection) (enabled_only : bool) :
  StronglySorted priority_le (get_all_rules docs enabled_only) /\
  NoDup (fst <$> get_all_rules docs enabled_only) /\
  (forall id r, (id, r) ∈ get_all_rules docs enabled_only <->
     docs !! id = Some r /\ (enabled_only = true -> enabled r = Some true)).
Proof.
  unfold get_all_rules. split; [apply StronglySorted_merge_sort; apply _ |]. split.
  - rewrite merge_sort_Permutation.
    eapply sublist_NoDup; [apply (NoDup_fst_map_to_list docs) |].
    apply fmap_sublist, filter_sublist.
  - intros id r. rewrite merge_sort_Permutation, list_elem_of_In, filter_In.
    rewrite <- list_elem_of_In, elem_of_map_to_list. unfold matches_query. simpl.
    destruct enabled_only;
      [| split; intros [Hdoc _]; (split; [exact Hdoc | reflexivity || discriminate])].
    destruct (enabled r) as [[] |]; split; intros [Hdoc Hen]; split; auto;
      try discriminate; try (specialize (Hen eq_refl); discriminate).
Qed.

(** * Further properties of cooldown and statistics *)

(** X19: after [update_last_triggered] at time [t] on a stored rule,
    [check_cooldown] at a later reading [t'] answers true iff
    [t' - t >= cooldown] (300 s when the rule has none): with a positive
    cooldown the rule is not ready at the instant it fired, and it is ready
    again as soon as the cooldown has elapsed. *)
Theorem cooldown_after_trigger (docs : collection) (t t' : Q) rule_id zones avg_value
    (r : rule) :
  get_rule docs rule_id = Some r ->
  let docs' := update_last_triggered docs t rule_id zones avg_value in
  (check_cooldown docs' t' rule_id = true <-> (cooldown_of r <= t' - t)%Q) /\
  ((0 < cooldown_of r)%Q -> check_cooldown docs' t rule_id = false) /\
  check_cooldown docs' (t + cooldown_of r) rule_id = true.
Proof.
  intros Hr docs'.
  assert (Hcheck : forall at_time,
            check_cooldown docs' at_time rule_id = Qle_bool (cooldown_of r) (at_time - t)).
  { intros at_time. unfold check_cooldown, get_rule. subst docs'.
    rewrite (update_last_triggered_lookup _ _ _ _ _ _ Hr). reflexivity. }
  rewrite !Hcheck. split; [apply Qle_bool_iff |]. split.
  - intros Hpos. destruct (Qle_bool _ _) eqn:E; [| reflexivity].
    apply Qle_bool_iff in E. lra.
  - apply Qle_bool_iff. lra.
Qed.

Lemma cooldown_after_trigger_witness :
  check_cooldown
    (update_last_triggered {[ 7 := stored_rule (Some 60%Q) None ]} 1000 7 None None)
    1000 7 = false.
Proof.
  apply (cooldown_after_trigger {[ 7 := stored_rule (Some 60%Q) None ]} 1000 1000 7 None None
           (stored_rule (Some 60%Q) None) (lookup_singleton_eq _ _)).
  reflexivity.
Defined.

(** X20: [update_last_triggered] with a non-empty list of zones stores as
    [zones_affected] the union of the zones recorded so far and the new
    ones, each zone once: no recorded zone is ever lost. With no zones (or
    an empty list) the recorded zones stay as they are. *)
Theorem zones_affected_union (old : rule_stats) (zones : option (list string))
    (avg_value : option Q) :
  (truthy_list zones = true ->
   exists stored,
     zones_affected (updated_stats old zones avg_value) = Some stored /\
     NoDup stored /\
     (forall z, z ∈ stored <-> z ∈ default [] (zones_affected old) \/ z ∈ default [] zones)) /\
  (truthy_list zones = false ->
   zones_affected (updated_stats old zones avg_value) = zones_affected old).
Proof.
  unfold updated_stats. simpl. split; intros Hz; rewrite Hz; [| reflexivity].
  eexists. split; [reflexivity |]. unfold merge_zones. split.
  - apply NoDup_elements.
  - intros z. rewrite elem_of_elements, elem_of_union, !elem_of_list_to_set. reflexivity.
Qed.

Lemma zones_affected_union_witness :
  exists stored,
    zones_affected (updated_stats
                      {| total_triggers := Some 1%Z; last_7_days_triggers := None;
                         avg_value_on_trigger := None; zones_affected := Some ["A"; "B"] |}
                      (Some ["B"; "C"]) None) = Some stored /\
    NoDup stored /\ "A" ∈ stored /\ "C" ∈ stored.
Proof.
  destruct (proj1 (zones_affected_union
                     {| total_triggers := Some 1%Z; last_7_days_triggers := None;
                        avg_value_on_trigger := None; zones_affected := Some ["A"; "B"] |}
                     (Some ["B"; "C"]) None) eq_refl) as (stored & Hs & Hnd & Hin).
  exists stored. split; [exact Hs |]. split; [exact Hnd |].
  split; apply Hin; simpl; [left | right]; set_solver.
Defined.

(** X21: [update_last_triggered] on an identifier that is not stored
    changes nothing. On a stored rule it changes only [last_triggered]
    (set to the time of the call), [trigger_count] and [stats] of that
    rule: its name, type, conditions, actions, enabled flag, severity,
    priority and cooldown stay, no other rule is touched, and without an
    average value the stored average stays as it is. *)
Theorem update_last_triggered_frame (docs : collection) now rule_id zones avg_value :
  (get_rule docs rule_id = None ->
   update_last_triggered docs now rule_id zones avg_value = docs) /\
  (forall r, get_rule docs rule_id = Some r ->
     exists after,
       get_rule (update_last_triggered docs now rule_id zones avg_value) rule_id = Some after /\
       last_triggered after = Some now /\
       name after = name r /\ rule_type after = rule_type r /\
       conditions after = conditions r /\ actions after = actions r /\
       enabled after = enabled r /\ severity after = severity r /\
       priority after = priority r /\ cooldown after = cooldown r /\
       (avg_value = None -> avg_value_of after = avg_value_of r)) /\
  (forall other, other <> rule_id ->
     get_rule (update_last_triggered docs now rule_id zones avg_value) other
     = get_rule docs other) /\
  dom (update_last_triggered docs now rule_id zones avg_value) = dom docs.
Proof.
  split; [| split; [| split]].
  - unfold update_last_triggered. now intros ->.
  - intros r Hr. exists (fired r (now, zones, avg_value)).
    split; [now apply update_last_triggered_lookup |].
    repeat split. intros ->. reflexivity.
  - intros other Hne. now apply update_last_triggered_other.
  - unfold update_last_triggered, get_rule.
    destruct (docs !! rule_id) eqn:Hr; [| reflexivity].
    rewrite dom_insert_L. apply elem_of_dom_2 in Hr. set_solver.
Qed.

(** * The alert-check pass *)

Lemma get_default_present (log : event) (key : string) (dflt : value) :
  is_None (get log key) = false -> get_default log key dflt = get log key.
Proof.
  unfold get, get_default. destruct (log !! key); [reflexivity | discriminate].
Qed.

Lemma present_values_cons (log : event) (rest : list event) :
  present_values (log :: rest)
  = if is_None (get log "value") then present_values rest
    else get_default log "value" (VNum 0) :: present_values rest.
Proof. unfold present_values. simpl. now destruct (is_None (get log "value")). Qed.

Lemma numeric_values_cons (log : event) (rest : list event) :
  numeric_values (log :: rest)
  = match num_of (get log "value") with
    | Some q => q :: numeric_values rest
    | None => numeric_values rest
    end.
Proof. reflexivity. Qed.

Lemma sum_Q_cons (q : Q) (values : list Q) : sum_Q (q :: values) = (q + sum_Q values)%Q.
Proof. reflexivity. Qed.

Lemma py_sum_numeric (logs : list event) (acc : Q) :
  forallb (numeric_or_missing "value") logs = true ->
  exists total,
    py_sum acc (present_values logs) = Ok total /\
    (total == acc + sum_Q (numeric_values logs))%Q /\
    length (present_values logs) = length (numeric_values logs).
Proof.
  revert acc. induction logs as [| log rest IH]; intros acc Hall.
  - exists acc. split; [reflexivity |].
    split; [symmetry; apply Qplus_0_r | reflexivity].
  - simpl in Hall. apply andb_prop in Hall as [Hlog Hrest].
    unfold numeric_or_missing in Hlog.
    rewrite present_values_cons, numeric_values_cons.
    destruct (is_None (get log "value")) eqn:Hnone.
    + assert (Hnum : num_of (get log "value") = None)
        by (destruct (get log "value"); try discriminate Hnone; reflexivity).
      rewrite Hnum. apply IH, Hrest.
    + simpl in Hlog. rewrite (get_default_present _ _ _ Hnone).
      destruct (num_of (get log "value")) as [q |] eqn:Hq; [| discriminate].
      cbn [py_sum]. rewrite Hq.
      destruct (IH (acc + q)%Q Hrest) as (total & Hsum & Heq & Hlen).
      exists total. split; [exact Hsum |]. split; [| cbn [length]; now rewrite Hlen].
      rewrite Heq, sum_Q_cons. ring.
Qed.

Lemma py_sum_not_numeric (logs : list event) (acc : Q) :
  forallb (numeric_or_missing "value") logs = false ->
  py_sum acc (present_values logs) = Raise TypeError /\ present_values logs <> [].
Proof.
  revert acc. induction logs as [| log rest IH]; intros acc Hall; [discriminate |].
  simpl in Hall. rewrite present_values_cons.
  unfold numeric_or_missing in Hall.
  destruct (is_None (get log "value")) eqn:Hnone; simpl in Hall; [now apply IH |].
  rewrite (get_default_present _ _ _ Hnone). cbn [py_sum].
  destruct (num_of (get log "value")) as [q |]; simpl in Hall;
    [| split; [reflexivity | discriminate]].
  split; [now apply IH | discriminate].
Qed.



Section PassProperties.

Variable fromisoformat : string -> option datetime.
Variable http : outbound -> option nat.
Variable send_alert_email : list string -> bool.
Variable now : Q.
Variable recent_logs : list event.

Local Abbreviation step :=
  (alert_rule_step fromisoformat http send_alert_email now recent_logs).
Local Abbreviation loop :=
  (alert_rules_loop fromisoformat http send_alert_email now recent_logs).
Local Abbreviation fired_in_step :=
  (fired_in_step fromisoformat http send_alert_email now recent_logs).

Lemma check_cooldown_stored (docs : collection) at_time rule_id :
  check_cooldown docs at_time rule_id = true -> exists r, get_rule docs rule_id = Some r.
Proof.
  unfold check_cooldown. destruct (get_rule docs rule_id); [eauto | discriminate].
Qed.

Lemma alert_rule_step_cases (st st' : pass_state) (entry : nat * rule) (e : step_end) :
  step st entry = Some (st', e) ->
  st' = st \/ (e = Continue /\ fired_in_step st entry st').
Proof.
  unfold alert_rule_step. destruct entry as [rule_id r].
  destruct (check_cooldown (pass_docs st) now rule_id) eqn:Hcool; simpl.
  2: { destruct (name r); intros H; injection H as <- _; now left. }
  destruct (evaluate_rule fromisoformat now r recent_logs) as [is_triggered matched] eqn:Heval.
  destruct is_triggered; simpl; [| intros H; injection H as <- _; now left].
  destruct (Nat.eqb (length matched) 0) eqn:Hlen; simpl;
    [intros H; injection H as <- _; now left |].
  destruct (name r) as [rule_name |] eqn:Hname; [| intros H; injection H as <- _; now left].
  destruct (existsb is_list (zone_values matched));
    [intros H; injection H as <- _; now left |].
  destruct (average_value matched) as [avg_value | exc] eqn:Havg;
    [| intros H; injection H as <- _; now left].
  destruct (zone_names (zone_values matched)) as [names |] eqn:Hzones; [| discriminate].
  intros H. injection H as <- <-. right. split; [reflexivity |].
  destruct (check_cooldown_stored _ _ _ Hcool) as [stored Hstored].
  exists matched, rule_name, avg_value, names, stored. simpl.
  repeat split; try assumption; try reflexivity.
  - intros ->. discriminate Hlen.
  - eexists. split; [reflexivity |]. repeat split.
Qed.

Lemma alert_rules_loop_invariant (P : pass_state -> Prop) (active : list (nat * rule)) :
  (forall st entry st' e, In entry active -> P st -> step st entry = Some (st', e) -> P st') ->
  forall st st' e, P st -> loop st active = Some (st', e) -> P st'.
Proof.
  induction active as [| entry rest IH]; intros Hstep st st' e HP Hloop.
  - simpl in Hloop. injection Hloop as <- _. exact HP.
  - simpl in Hloop.
    destruct (alert_rule_step _ _ _ _ _ st entry) as [[st1 e1] |] eqn:Hs; [| discriminate].
    assert (HP1 : P st1) by (eapply Hstep; [left; reflexivity | exact HP | exact Hs]).
    destruct e1.
    + eapply IH; [| exact HP1 | exact Hloop].
      intros st0 entry0 st0' e0 Hin. apply Hstep. now right.
    + injection Hloop as <- _. exact HP1.
Qed.

Lemma _evaluate_alert_rules_loop (docs docs' : collection) alerts dispatched :
  _evaluate_alert_rules fromisoformat http send_alert_email now recent_logs docs
  = Some (docs', alerts, dispatched) ->
  exists st e,
    loop {| pass_docs := docs; pass_alerts := []; pass_dispatched := [] |}
         (get_all_rules docs true) = Some (st, e) /\
    pass_docs st = docs' /\ pass_dispatched st = dispatched /\
    (alerts = pass_alerts st \/ alerts = []).
Proof.
  unfold _evaluate_alert_rules.
  destruct (alert_rules_loop _ _ _ _ _ _ _) as [[st e] |]; [| discriminate].
  destruct e; intros H; injection H as <- <- <-; exists st; eexists;
    (split; [reflexivity |]); auto.
Qed.

Lemma check_cooldown_same (docs1 docs2 : collection) at_time rule_id :
  get_rule docs1 rule_id = get_rule docs2 rule_id ->
  check_cooldown docs1 at_time rule_id = check_cooldown docs2 at_time rule_id.
Proof. unfold check_cooldown. now intros ->. Qed.

Lemma loop_skips_rule_in_cooldown (active : list (nat * rule)) (st st' : pass_state)
    (e : step_end) rule_id (r : rule) :
  loop st active = Some (st', e) ->
  get_rule (pass_docs st) rule_id = Some r ->
  check_cooldown (pass_docs st) now rule_id = false ->
  Forall (fun a => alert_rule_id a <> rule_id) (pass_alerts st) ->
  Forall (fun d => fst d <> rule_id) (pass_dispatched st) ->
  get_rule (pass_docs st') rule_id = Some r /\
  Forall (fun a => alert_rule_id a <> rule_id) (pass_alerts st') /\
  Forall (fun d => fst d <> rule_id) (pass_dispatched st').
Proof.
  intros Hloop Hr Hcool Halerts Hdisp.
  set (P := fun st0 : pass_state =>
              get_rule (pass_docs st0) rule_id = Some r /\
              Forall (fun a => alert_rule_id a <> rule_id) (pass_alerts st0) /\
              Forall (fun d => fst d <> rule_id) (pass_dispatched st0)).
  apply (alert_rules_loop_invariant P active) with (st := st) (e := e);
    [| now repeat split | exact Hloop].
  intros st0 entry st0' e0 _ (Hdoc & Ha & Hd) Hstep.
  apply alert_rule_step_cases in Hstep as [-> | [_ Hfired]]; [now repeat split |].
  destruct Hfired as (matched & rule_name & avg_value & names & stored & Hc & _ & _ & _
                      & _ & _ & _ & Hdocs & (a & Hal & Hid & _) & Hdisp').
  assert (Hne : fst entry <> rule_id).
  { intros Heq. rewrite Heq in Hc.
    rewrite (check_cooldown_same _ (pass_docs st) now rule_id) in Hc; [congruence |].
    now rewrite Hdoc, Hr. }
  unfold P. rewrite Hdocs, Hal, Hdisp'. split; [| split].
  - unfold get_rule in *. rewrite update_last_triggered_other by congruence. exact Hdoc.
  - apply Forall_app. split; [exact Ha |]. constructor; [congruence | constructor].
  - apply Forall_app. split; [exact Hd |]. constructor; [exact Hne | constructor].
Qed.

Lemma pass_skips_rule (docs docs' : collection) alerts dispatched rule_id (r : rule) :
  _evaluate_alert_rules fromisoformat http send_alert_email now recent_logs docs
  = Some (docs', alerts, dispatched) ->
  get_rule docs rule_id = Some r ->
  check_cooldown docs now rule_id = false ->
  Forall (fun a => alert_rule_id a <> rule_id) alerts /\
  Forall (fun d => fst d <> rule_id) dispatched.
Proof.
  intros Hrun Hr Hcool.
  destruct (_evaluate_alert_rules_loop _ _ _ _ Hrun) as (st & e & Hloop & <- & <- & Halerts).
  destruct (loop_skips_rule_in_cooldown _ _ _ _ rule_id r Hloop Hr Hcool)
    as (_ & Ha & Hd); [constructor | constructor |].
  split; [| exact Hd]. destruct Halerts as [-> | ->]; [exact Ha | constructor].
Qed.


Lemma get_all_rules_enabled (docs : collection) (id : nat) (r : rule) :
  In (id, r) (get_all_rules docs true) -> get_rule docs id = Some r /\ enabled r = Some true.
Proof.
  unfold get_all_rules. rewrite <- list_elem_of_In, merge_sort_Permutation, list_elem_of_In.
  rewrite filter_In, <- list_elem_of_In, elem_of_map_to_list. simpl.
  intros [Hdoc Hen]. split; [exact Hdoc |].
  destruct (enabled r) as [[] |]; [reflexivity | discriminate | discriminate].
Qed.

(** X24: every alert the pass returns stands for a rule that fired in this
    pass: an enabled stored rule whose evaluation on the recent events
    triggered with at least one matched event; the alert carries the number
    of matched events and their average value, and the stored rule has
    [last_triggered] set to the time of the pass, so that it is in
    cooldown. *)
Theorem pass_alerts_are_firings (docs docs' : collection) alerts dispatched (a : alert) :
  _evaluate_alert_rules fromisoformat http send_alert_email now recent_logs docs
  = Some (docs', alerts, dispatched) ->
  In a alerts ->
  exists r matched after,
    get_rule docs (alert_rule_id a) = Some r /\ enabled r = Some true /\
    name r = Some (alert_rule_name a) /\
    alert_severity a = default "medium" (severity r) /\
    evaluate_rule fromisoformat now r recent_logs = (true, matched) /\
    matched <> [] /\ alert_matching_count a = length matched /\
    average_value matched = Ok (alert_value a) /\
    get_rule docs' (alert_rule_id a) = Some after /\ last_triggered after = Some now.
Proof.
  intros Hrun Hin.
  destruct (_evaluate_alert_rules_loop _ _ _ _ Hrun) as (st & e & Hloop & <- & <- & Halerts).
  destruct Halerts as [-> | ->]; [| destruct Hin].
  set (Q := fun (docs1 : collection) (a : alert) =>
              exists r matched after,
                In (alert_rule_id a, r) (get_all_rules docs true) /\
                name r = Some (alert_rule_name a) /\
                alert_severity a = default "medium" (severity r) /\
                evaluate_rule fromisoformat now r recent_logs = (true, matched) /\
                matched <> [] /\ alert_matching_count a = length matched /\
                average_value matched = Ok (alert_value a) /\
                get_rule docs1 (alert_rule_id a) = Some after /\
                last_triggered after = Some now).
  assert (HP : Forall (Q (pass_docs st)) (pass_alerts st)).
  { eapply (alert_rules_loop_invariant
              (fun st => Forall (Q (pass_docs st)) (pass_alerts st)));
      [| | exact Hloop]; [| constructor].
    intros st0 entry st0' e0 Hentry HQ Hstep.
    apply alert_rule_step_cases in Hstep as [-> | [_ Hfired]]; [exact HQ |].
    destruct Hfired as (matched & rule_name & avg_value & names & stored & Hc & Hstored
                        & Heval & Hne & Hname & Havg & _ & Hdocs
                        & (a0 & Hal & Hid & Hnm & Hval & Hcount & Hsev) & _).
    rewrite Hal, Hdocs. apply Forall_app. split.
    - eapply Forall_impl; [exact HQ |]. intros a1 (r1 & m1 & after1 & H1 & H2 & H3 & H4
        & H5 & H6 & H7 & H8 & H9).
      destruct (decide (alert_rule_id a1 = fst entry)) as [Heq | Hneq].
      + exists r1, m1, (fired stored (now, Some (distinct_zones names), Some avg_value)).
        repeat split; try assumption. rewrite Heq.
        now apply update_last_triggered_lookup.
      + exists r1, m1, after1. repeat split; try assumption.
        unfold get_rule in *. now rewrite update_last_triggered_other.
    - constructor; [| constructor].
      exists (snd entry), matched,
        (fired stored (now, Some (distinct_zones names), Some avg_value)).
      rewrite Hid, Hnm, Hval, Hcount, Hsev. repeat split; try assumption.
      + now rewrite <- surjective_pairing.
      + now apply update_last_triggered_lookup. }
  rewrite List.Forall_forall in HP. destruct (HP a Hin) as (r & matched & after & Hr & H).
  apply get_all_rules_enabled in Hr as [Hdoc Hen].
  exists r, matched, after. tauto.
Qed.

Lemma update_last_triggered_same_definition (docs : collection) at_time rule_id zones
    avg_value id (x : rule) :
  get_rule (update_last_triggered docs at_time rule_id zones avg_value) id = Some x ->
  exists y, get_rule docs id = Some y /\ same_definition x y.
Proof.
  unfold get_rule. destruct (decide (id = rule_id)) as [-> | Hne].
  - destruct (docs !! rule_id) as [y |] eqn:Hy.
    + rewrite (update_last_triggered_lookup _ _ _ _ _ _ Hy). intros H. injection H as <-.
      exists y. split; [reflexivity |]. repeat split.
    + unfold update_last_triggered, get_rule. rewrite Hy. congruence.
  - rewrite update_last_triggered_other by exact Hne. intros Hx.
    exists x. split; [exact Hx |]. repeat split.
Qed.

Lemma update_last_triggered_dom (docs : collection) at_time rule_id zones avg_value :
  dom (update_last_triggered docs at_time rule_id zones avg_value) = dom docs.
Proof.
  unfold update_last_triggered, get_rule.
  destruct (docs !! rule_id) eqn:Hr; [| reflexivity].
  rewrite dom_insert_L. apply elem_of_dom_2 in Hr. set_solver.
Qed.

Lemma pass_same_definition (docs docs' : collection) alerts dispatched id (x : rule) :
  _evaluate_alert_rules fromisoformat http send_alert_email now recent_logs docs
  = Some (docs', alerts, dispatched) ->
  get_rule docs' id = Some x ->
  exists y, get_rule docs id = Some y /\ same_definition x y.
Proof.
  intros Hrun.
  destruct (_evaluate_alert_rules_loop _ _ _ _ Hrun) as (st & e & Hloop & <- & _ & _).
  revert id x.
  apply (alert_rules_loop_invariant
           (fun st0 => forall id x, get_rule (pass_docs st0) id = Some x ->
                         exists y, get_rule docs id = Some y /\ same_definition x y)
           (get_all_rules docs true))
    with (st := {| pass_docs := docs; pass_alerts := []; pass_dispatched := [] |}) (e := e);
    [| | exact Hloop].
  - intros st0 entry st0' e0 _ Hsame Hstep.
    apply alert_rule_step_cases in Hstep as [-> | [_ Hfired]]; [exact Hsame |].
    destruct Hfired as (matched & rule_name & avg_value & names & stored & _ & _ & _ & _
                        & _ & _ & _ & Hdocs & _).
    rewrite Hdocs. intros id x Hx.
    apply update_last_triggered_same_definition in Hx as (y & Hy & Hxy).
    destruct (Hsame id y Hy) as (z & Hz & Hyz). exists z. split; [exact Hz |].
    unfold same_definition in *.
    destruct Hxy as (?&?&?&?&?&?&?&?), Hyz as (?&?&?&?&?&?&?&?).
    repeat split; congruence.
  - simpl. intros id x Hx. exists x. split; [exact Hx |]. repeat split.
Qed.

Lemma pass_alert_last_triggered (docs docs' : collection) alerts dispatched (a : alert) :
  _evaluate_alert_rules fromisoformat http send_alert_email now recent_logs docs
  = Some (docs', alerts, dispatched) ->
  In a alerts ->
  exists after, get_rule docs' (alert_rule_id a) = Some after /\
                last_triggered after = Some now.
Proof.
  intros Hrun Hin.
  destruct (_evaluate_alert_rules_loop _ _ _ _ Hrun) as (st & e & Hloop & <- & _ & Halerts).
  destruct Halerts as [-> | ->]; [| destruct Hin].
  revert a Hin. apply List.Forall_forall.
  apply (alert_rules_loop_invariant
           (fun st0 => Forall (fun a => exists after,
                                 get_rule (pass_docs st0) (alert_rule_id a) = Some after /\
                                 last_triggered after = Some now) (pass_alerts st0))
           (get_all_rules docs true))
    with (st := {| pass_docs := docs; pass_alerts := []; pass_dispatched := [] |}) (e := e);
    [| constructor | exact Hloop].
  intros st0 entry st0' e0 _ HQ Hstep.
  apply alert_rule_step_cases in Hstep as [-> | [_ Hfired]]; [exact HQ |].
  destruct Hfired as (matched & rule_name & avg_value & names & stored & _ & Hstored
                      & _ & _ & _ & _ & _ & Hdocs & (a0 & Hal & Hid & _) & _).
  rewrite Hal, Hdocs. apply Forall_app. split.
  - eapply Forall_impl; [exact HQ |]. intros a1 (after1 & H1 & H2).
    destruct (decide (alert_rule_id a1 = fst entry)) as [Heq | Hneq].
    + exists (fired stored (now, Some (distinct_zones names), Some avg_value)).
      split; [| reflexivity]. rewrite Heq. now apply update_last_triggered_lookup.
    + exists after1. split; [| exact H2].
      unfold get_rule in *. now rewrite update_last_triggered_other.
  - constructor; [| constructor].
    exists (fired stored (now, Some (distinct_zones names), Some avg_value)).
    split; [| reflexivity]. rewrite Hid. now apply update_last_triggered_lookup.
Qed.

Lemma zone_names_defined (matched : list event) :
  Forall (fun log => zone_is_text_or_list log = true) matched ->
  existsb is_list (zone_values matched) = false ->
  exists names, zone_names (zone_values matched) = Some names.
Proof.
  induction 1 as [| log rest Hlog Hrest IH]; simpl; [eauto |].
  unfold zone_is_text_or_list in Hlog. unfold get_default.
  destruct (log !! "zone") as [[| | | z | l] |]; simpl; try discriminate;
    intros Hno; destruct (IH Hno) as [names ->]; simpl; eauto.
Qed.

Lemma alert_rule_step_defined (st : pass_state) (entry : nat * rule) :
  forallb zone_is_text_or_list recent_logs = true ->
  exists result, step st entry = Some result.
Proof.
  intros Hzones. unfold alert_rule_step. destruct entry as [rule_id r].
  destruct (negb (check_cooldown (pass_docs st) now rule_id)); [destruct (name r); eauto |].
  pose proof (evaluate_rule_sublist fromisoformat now r recent_logs) as Hsub.
  destruct (evaluate_rule fromisoformat now r recent_logs) as [is_triggered matched].
  simpl in Hsub.
  destruct (is_triggered && negb (Nat.eqb (length matched) 0)); [| eauto].
  destruct (name r); [| eauto].
  destruct (existsb is_list (zone_values matched)) eqn:Hlist; [eauto |].
  destruct (average_value matched); [| eauto].
  assert (Hall : Forall (fun log => zone_is_text_or_list log = true) matched).
  { apply Forall_forall. intros log Hin. rewrite forallb_forall in Hzones.
    apply Hzones. rewrite <- list_elem_of_In in *. eapply elem_of_sublist; eassumption. }
  destruct (zone_names_defined matched Hall Hlist) as [names ->]. eauto.
Qed.

Lemma alert_rules_loop_defined (active : list (nat * rule)) (st : pass_state) :
  forallb zone_is_text_or_list recent_logs = true ->
  exists result, loop st active = Some result.
Proof.
  intros Hzones. revert st. induction active as [| entry rest IH]; intros st; simpl;
    [eauto |].
  destruct (alert_rule_step_defined st entry Hzones) as [[st' e] ->].
  destruct e; [apply IH | eauto].
Qed.

Lemma pass_defined (docs : collection) :
  forallb zone_is_text_or_list recent_logs = true ->
  exists result,
    _evaluate_alert_rules fromisoformat http send_alert_email now recent_logs docs
    = Some result.
Proof.
  intros Hzones. unfold _evaluate_alert_rules.
  destruct (alert_rules_loop_defined (get_all_rules docs true)
              {| pass_docs := docs; pass_alerts := []; pass_dispatched := [] |} Hzones)
    as [[st e] ->].
  destruct e; eauto.
Qed.

(** X25: the pass never creates, deletes or redefines a rule: the stored
    identifiers are the same after it, and every rule keeps its name, type,
    conditions, actions, enabled flag, severity, priority and cooldown.
    The alerts it returns are in the order of the dispatcher calls it made,
    one alert per rule dispatched, unless an exception emptied the alert
    list. On events whose zone is absent, a text or a list the pass always
    returns. *)
Theorem pass_keeps_rule_definitions (docs : collection) :
  (forallb zone_is_text_or_list recent_logs = true ->
   exists result,
     _evaluate_alert_rules fromisoformat http send_alert_email now recent_logs docs
     = Some result) /\
  (forall docs' alerts dispatched,
     _evaluate_alert_rules fromisoformat http send_alert_email now recent_logs docs
     = Some (docs', alerts, dispatched) ->
     dom docs' = dom docs /\
     (forall id x, get_rule docs' id = Some x ->
        exists y, get_rule docs id = Some y /\ same_definition x y) /\
     (alerts = [] \/ map alert_rule_id alerts = map fst dispatched)).
Proof.
  split.
  - apply pass_defined.
  - intros docs' alerts dispatched Hrun.
    split; [| split; [intros id x; apply (pass_same_definition _ _ _ _ _ _ Hrun) |]].
    + destruct (_evaluate_alert_rules_loop _ _ _ _ Hrun) as (st & e & Hloop & <- & _ & _).
      apply (alert_rules_loop_invariant (fun st0 => dom (pass_docs st0) = dom docs)
               (get_all_rules docs true))
        with (st := {| pass_docs := docs; pass_alerts := []; pass_dispatched := [] |})
             (e := e); [| reflexivity | exact Hloop].
      intros st0 entry st0' e0 _ Hdom Hstep.
      apply alert_rule_step_cases in Hstep as [-> | [_ Hfired]]; [exact Hdom |].
      destruct Hfired as (matched & rule_name & avg_value & names & stored & _ & _ & _ & _
                          & _ & _ & _ & Hdocs & _).
      now rewrite Hdocs, update_last_triggered_dom.
    + destruct (_evaluate_alert_rules_loop _ _ _ _ Hrun)
        as (st & e & Hloop & _ & <- & Halerts).
      destruct Halerts as [-> | ->]; [right | now left].
      apply (alert_rules_loop_invariant
               (fun st0 => map alert_rule_id (pass_alerts st0) = map fst (pass_dispatched st0))
               (get_all_rules docs true))
        with (st := {| pass_docs := docs; pass_alerts := []; pass_dispatched := [] |})
             (e := e); [| reflexivity | exact Hloop].
      intros st0 entry st0' e0 _ Hids Hstep.
      apply alert_rule_step_cases in Hstep as [-> | [_ Hfired]]; [exact Hids |].
      destruct Hfired as (matched & rule_name & avg_value & names & stored & _ & _ & _ & _
                          & _ & _ & _ & _ & (a & Hal & Hid & _) & Hdisp).
      rewrite Hal, Hdisp, !map_app. simpl. now rewrite Hids, Hid.
Qed.

End PassProperties.


Lemma pass_alerts_are_firings_witness :
  exists docs' alerts dispatched a,
    _evaluate_alert_rules no_parse always_200 mail_delivered 1000%Q hot_readings monitored
    = Some (docs', alerts, dispatched) /\
    In a alerts /\
    exists r matched after,
      get_rule monitored (alert_rule_id a) = Some r /\ enabled r = Some true /\
      name r = Some (alert_rule_name a) /\
      alert_severity a = default "medium" (severity r) /\
      evaluate_rule no_parse 1000%Q r hot_readings = (true, matched) /\
      matched <> [] /\ alert_matching_count a = length matched /\
      average_value matched = Ok (alert_value a) /\
      get_rule docs' (alert_rule_id a) = Some after /\ last_triggered after = Some 1000%Q.
Proof.
  destruct (_evaluate_alert_rules no_parse always_200 mail_delivered 1000%Q hot_readings
              monitored) as [[[docs' [| a rest]] dispatched] |] eqn:Hrun.
  - vm_compute in Hrun. discriminate Hrun.
  - exists docs', (a :: rest), dispatched, a. split; [reflexivity |].
    split; [left; reflexivity |].
    apply (pass_alerts_are_firings no_parse always_200 mail_delivered 1000%Q
             hot_readings monitored docs' (a :: rest) dispatched a Hrun).
    left. reflexivity.
  - vm_compute in Hrun. discriminate Hrun.
Defined.


